(** * uwsm: the memoising D-Bus facade of [uwsm/dbus.py]

    A shallow embedding of the class [DbusInteractions] and the properties of
    its lazy object cache.  The class keeps one class-level dictionary,
    [dbus_objects], shared by every instance; its methods fill that cache on
    first use and talk to the bus through the [dbus] library.  The library is
    the boundary of the model: every call into it is recorded in a trace and
    answered by an oracle that may raise a fault. *)

From Stdlib Require Import Ascii String.
From stdpp Require Import base strings gmap list fin_maps.

Local Open Scope string_scope.

(** ** Data model *)

(** Python objects created by the [dbus] library (connections, proxy objects,
    interface wrappers) are compared by identity: a handle is the identity of
    one such object. *)
Definition handle := nat.

(** The Python values that cross the library boundary as arguments or
    replies: [None], [str] (also [dbus.String], [dbus.ObjectPath]), a list of
    strings and a dictionary from strings to strings, in insertion order. *)
Inductive value :=
| VNone
| VStr (s : string)
| VList (l : list string)
| VDict (d : list (string * string)).

(** What one level of [dbus_objects] holds under a key: an object of the
    library, or the nested dictionary [unit_properties] from unit identifiers
    to interface wrappers. *)
Inductive entry :=
| Handle (h : handle)
| Units (m : gmap string handle).

(** The calls the class makes into the [dbus] library. *)
Inductive call :=
| SystemBus
| SessionBus
| GetObject (bus : handle) (bus_name : string) (object_path : value)
| Interface (object : entry) (dbus_interface : string)
| Method (iface : handle) (name : string) (args : list value).

Inductive exn :=
| ValueError (msg : string)
| KeyError (key : string)
| TypeError (msg : string)
| AttributeError (attr : string)
| DBusException (fault : string).

Inductive result (A : Type) :=
| Ok (a : A)
| Raise (e : exn).
Arguments Ok {A} a.
Arguments Raise {A} e.

(** The bus library seen from the class: for a call made after the calls of
    [history], either the fault it raises or, for a method call, its reply. *)
Record library := Library {
  fault_of : list call → call → option string;
  reply_of : list call → call → value }.

(** The state the methods run in: the shared class attribute, the calls made
    to the library so far (oldest first) and the identity of the next object
    the library creates. *)
Record world := World {
  dbus_objects : gmap string (gmap string entry);
  trace : list call;
  next_handle : handle }.

(** [dbus_objects = {"system": {}, "session": {}}] *)
Definition initial_world : world :=
  World (<["system" := ∅]> (<["session" := ∅]> ∅)) [] 0.

Record instance := Instance { dbus_level : string }.

(** ** Computations that read and write the world and may raise *)

Definition M (A : Type) : Type := world → result A * world.

Definition ret {A} (a : A) : M A := fun w => (Ok a, w).

Definition raise {A} (e : exn) : M A := fun w => (Raise e, w).

(** A step that does not touch the world. *)
Definition lift {A} (r : result A) : M A := fun w => (r, w).

Definition bind {A B} (m : M A) (k : A → M B) : M B :=
  fun w =>
    match m w with
    | (Ok a, w') => k a w'
    | (Raise e, w') => (Raise e, w')
    end.

Declare Scope py_scope.
Delimit Scope py_scope with py.
Notation "x <- m ;; k" := (bind m (fun x => k))
  (at level 100, m at next level, right associativity) : py_scope.
Notation "m ;;; k" := (bind m (fun _ => k))
  (at level 100, right associativity) : py_scope.
Local Open Scope py_scope.

(** Runs [m] [n] times in a row, stopping at the first exception. *)
Fixpoint times {A} (n : nat) (m : M A) : M unit :=
  match n with
  | 0 => ret tt
  | S n' => m ;;; times n' m
  end.

(** ** Python strings and dictionaries *)

(** [s.partition("=")] when [s] contains the separator. *)
Fixpoint partition_eq (s : string) : option (string * string) :=
  match s with
  | EmptyString => None
  | String c rest =>
      if Ascii.eqb c "="%char then Some (EmptyString, rest)
      else match partition_eq rest with
           | Some (var, value) => Some (String c var, value)
           | None => None
           end
  end.

(** [s.split("=", maxsplit=1)] *)
Definition split_maxsplit1 (s : string) : list string :=
  match partition_eq s with
  | Some (var, value) => [var; value]
  | None => [s]
  end.

(** [var, value = parts] *)
Definition unpack2 (parts : list string) : result (string * string) :=
  match parts with
  | [var; value] => Ok (var, value)
  | [] | [_] => Raise (ValueError "not enough values to unpack")
  | _ => Raise (ValueError "too many values to unpack")
  end.

(** [d.update({k: v})] on an insertion-ordered dictionary: an existing key
    keeps its place and takes the new value, a new key goes last. *)
Fixpoint dict_update (d : list (string * string)) (k v : string)
  : list (string * string) :=
  match d with
  | [] => [(k, v)]
  | (k', v') :: rest =>
      if String.eqb k' k then (k', v) :: rest
      else (k', v') :: dict_update rest k v
  end.

(** [d[k]] *)
Fixpoint dict_get (d : list (string * string)) (k : string) : option string :=
  match d with
  | [] => None
  | (k', v') :: rest => if String.eqb k' k then Some v' else dict_get rest k
  end.

(** The characters of a string, as Python iterates over a [str]. *)
Fixpoint chars (s : string) : list string :=
  match s with
  | EmptyString => []
  | String c rest => String c EmptyString :: chars rest
  end.

(** [for assignment in assignments]: the strings [str(assignment)] the loop
    of [get_systemd_vars] sees. *)
Definition iterate (assignments : value) : result (list string) :=
  match assignments with
  | VNone => Raise (TypeError "'NoneType' object is not iterable")
  | VStr s => Ok (chars s)
  | VList l => Ok l
  | VDict d => Ok (d.*1)
  end.

(** The body of the [for] loop of [get_systemd_vars], run over the whole
    sequence from the dictionary [env]. *)
Fixpoint parse_assignments (assignments : list string)
    (env : list (string * string)) : result (list (string * string)) :=
  match assignments with
  | [] => Ok env
  | assignment :: rest =>
      match unpack2 (split_maxsplit1 assignment) with
      | Ok (var, value) => parse_assignments rest (dict_update env var value)
      | Raise e => Raise e
      end
  end.

(** [[f"{var}={value}" for var, value in vars_dict.items()]] *)
Definition format_assignments (vars_dict : list (string * string)) : list string :=
  map (fun '(var, value) => var +:+ "=" +:+ value) vars_dict.

(** ** The class [DbusInteractions] *)

Section DbusInteractions.

Variable lib : library.

(** *** Calls into the bus library *)

(** A call that creates a Python object (a connection, a proxy object or an
    interface wrapper): the call is recorded and, unless the library raises,
    a new object is returned. *)
Definition create (c : call) : M handle :=
  fun w =>
    match fault_of lib (trace w) c with
    | Some f =>
        (Raise (DBusException f), World (dbus_objects w) (trace w ++ [c]) (next_handle w))
    | None =>
        (Ok (next_handle w), World (dbus_objects w) (trace w ++ [c]) (S (next_handle w)))
    end.

(** A remote method call through an interface wrapper. *)
Definition remote (c : call) : M value :=
  fun w =>
    let w' := World (dbus_objects w) (trace w ++ [c]) (next_handle w) in
    match fault_of lib (trace w) c with
    | Some f => (Raise (DBusException f), w')
    | None => (Ok (reply_of lib (trace w) c), w')
    end.

(** [obj.name], the attribute lookup that precedes a call on a cached object:
    a dictionary has no such attribute. *)
Definition attribute (obj : entry) (name : string) : M handle :=
  match obj with
  | Handle h => ret h
  | Units _ => raise (AttributeError name)
  end.

(** [obj.name(args...)] on a cached interface wrapper. *)
Definition invoke (obj : entry) (name : string) (args : list value) : M value :=
  h <- attribute obj name ;;
  remote (Method h name args).

(** *** The shared cache *)

(** [self.dbus_objects[level]] *)
Definition level_objects (level : string) : M (gmap string entry) :=
  fun w =>
    match dbus_objects w !! level with
    | Some objects => (Ok objects, w)
    | None => (Raise (KeyError level), w)
    end.

(** [key in self.dbus_objects[level]] *)
Definition contains (level key : string) : M bool :=
  objects <- level_objects level ;;
  ret (bool_decide (is_Some (objects !! key))).

(** [self.dbus_objects[level][key]] *)
Definition getitem (level key : string) : M entry :=
  objects <- level_objects level ;;
  match objects !! key with
  | Some e => ret e
  | None => raise (KeyError key)
  end.

(** The dictionary [self.dbus_objects[level]] becomes [objects]: what an
    assignment to one of its keys does to the shared cache. *)
Definition store (level : string) (objects : gmap string entry) : M unit :=
  fun w =>
    (Ok tt, World (<[level := objects]> (dbus_objects w)) (trace w) (next_handle w)).

(** [self.dbus_objects[level][key] = e] *)
Definition setitem (level key : string) (e : entry) : M unit :=
  objects <- level_objects level ;;
  store level (<[key := e]> objects).

(** [unit_id in self.dbus_objects[level]["unit_properties"]] *)
Definition contains_unit (level unit_id : string) : M bool :=
  units <- getitem level "unit_properties" ;;
  match units with
  | Units m => ret (bool_decide (is_Some (m !! unit_id)))
  | Handle _ => raise (TypeError "argument is not iterable")
  end.

(** [self.dbus_objects[level]["unit_properties"][unit_id]] *)
Definition getitem_unit (level unit_id : string) : M entry :=
  units <- getitem level "unit_properties" ;;
  match units with
  | Units m =>
      match m !! unit_id with
      | Some h => ret (Handle h)
      | None => raise (KeyError unit_id)
      end
  | Handle _ => raise (TypeError "object is not subscriptable")
  end.

(** [self.dbus_objects[level]["unit_properties"][unit_id] = h]: the nested
    dictionary is changed in place. *)
Definition setitem_unit (level unit_id : string) (h : handle) : M unit :=
  units <- getitem level "unit_properties" ;;
  match units with
  | Units m => setitem level "unit_properties" (Units (<[unit_id := h]> m))
  | Handle _ => raise (TypeError "object does not support item assignment")
  end.

(** *** Construction

    The argument [dbus_level] of the source is [level] here; [dbus_level] is
    the attribute of the instance. *)

Definition __init__ (level : string) : M instance :=
  if bool_decide (level ∈ ["system"; "session"]) then
    let self := Instance level in
    present <- contains (dbus_level self) "bus" ;;
    (if negb present then
       if String.eqb level "system" then
         bus <- create SystemBus ;;
         setitem (dbus_level self) "bus" (Handle bus)
       else
         bus <- create SessionBus ;;
         setitem (dbus_level self) "bus" (Handle bus)
     else ret tt) ;;;
    ret self
  else
    raise (ValueError
             ("dbus_level can be 'system' or 'session', got '" +:+ level +:+ "'")).

(** *** Internal functions (adding objects) *)

Definition add_systemd (self : instance) : M unit :=
  present <- contains (dbus_level self) "systemd" ;;
  if negb present then
    bus <- getitem (dbus_level self) "bus" ;;
    get_object <- attribute bus "get_object" ;;
    obj <- create (GetObject get_object "org.freedesktop.systemd1"
                     (VStr "/org/freedesktop/systemd1")) ;;
    setitem (dbus_level self) "systemd" (Handle obj)
  else ret tt.

Definition add_systemd_manager (self : instance) : M unit :=
  add_systemd self ;;;
  present <- contains (dbus_level self) "systemd_manager" ;;
  if negb present then
    systemd <- getitem (dbus_level self) "systemd" ;;
    iface <- create (Interface systemd "org.freedesktop.systemd1.Manager") ;;
    setitem (dbus_level self) "systemd_manager" (Handle iface)
  else ret tt.

Definition add_systemd_properties (self : instance) : M unit :=
  add_systemd self ;;;
  present <- contains (dbus_level self) "systemd_properties" ;;
  if negb present then
    systemd <- getitem (dbus_level self) "systemd" ;;
    iface <- create (Interface systemd "org.freedesktop.DBus.Properties") ;;
    setitem (dbus_level self) "systemd_properties" (Handle iface)
  else ret tt.

Definition add_systemd_unit_properties (self : instance) (unit_id : string) : M unit :=
  add_systemd_manager self ;;;
  bus <- getitem (dbus_level self) "bus" ;;
  get_object <- attribute bus "get_object" ;;
  manager <- getitem (dbus_level self) "systemd_manager" ;;
  path <- invoke manager "GetUnit" [VStr unit_id] ;;
  unit_path <- create (GetObject get_object "org.freedesktop.systemd1" path) ;;
  present <- contains (dbus_level self) "unit_properties" ;;
  (if negb present then setitem (dbus_level self) "unit_properties" (Units ∅)
   else ret tt) ;;;
  known <- contains_unit (dbus_level self) unit_id ;;
  if negb known then
    iface <- create (Interface (Handle unit_path) "org.freedesktop.DBus.Properties") ;;
    setitem_unit (dbus_level self) unit_id iface
  else ret tt.

Definition add_dbus (self : instance) : M unit :=
  present <- contains (dbus_level self) "dbus" ;;
  if negb present then
    bus <- getitem (dbus_level self) "bus" ;;
    get_object <- attribute bus "get_object" ;;
    obj <- create (GetObject get_object "org.freedesktop.DBus"
                     (VStr "/org/freedesktop/DBus")) ;;
    setitem (dbus_level self) "dbus" (Handle obj)
  else ret tt.

Definition add_dbus_interface (self : instance) : M unit :=
  add_dbus self ;;;
  present <- contains (dbus_level self) "dbus_interface" ;;
  if negb present then
    obj <- getitem (dbus_level self) "dbus" ;;
    iface <- create (Interface obj "org.freedesktop.DBus") ;;
    setitem (dbus_level self) "dbus_interface" (Handle iface)
  else ret tt.

(** *** External functions (doing stuff via objects) *)

Definition get_unit_property (self : instance) (unit_id unit_property : string) : M value :=
  add_systemd_unit_properties self unit_id ;;;
  iface <- getitem_unit (dbus_level self) unit_id ;;
  invoke iface "Get" [VStr "org.freedesktop.systemd1.Unit"; VStr unit_property].

Definition reload_systemd (self : instance) : M value :=
  add_systemd_manager self ;;;
  manager <- getitem (dbus_level self) "systemd_manager" ;;
  invoke manager "Reload" [].

Definition list_systemd_jobs (self : instance) : M value :=
  add_systemd_manager self ;;;
  manager <- getitem (dbus_level self) "systemd_manager" ;;
  invoke manager "ListJobs" [].

Definition set_dbus_vars (self : instance) (vars_dict : list (string * string)) : M unit :=
  add_dbus_interface self ;;;
  iface <- getitem (dbus_level self) "dbus_interface" ;;
  invoke iface "UpdateActivationEnvironment" [VDict vars_dict] ;;;
  ret tt.

Definition set_systemd_vars (self : instance) (vars_dict : list (string * string)) : M unit :=
  add_systemd_manager self ;;;
  let assignments := format_assignments vars_dict in
  manager <- getitem (dbus_level self) "systemd_manager" ;;
  invoke manager "SetEnvironment" [VList assignments] ;;;
  ret tt.

Definition unset_systemd_vars (self : instance) (vars_list : list string) : M unit :=
  add_systemd_manager self ;;;
  manager <- getitem (dbus_level self) "systemd_manager" ;;
  invoke manager "UnsetEnvironment" [VList vars_list] ;;;
  ret tt.

Definition get_systemd_vars (self : instance) : M (list (string * string)) :=
  add_systemd_properties self ;;;
  properties <- getitem (dbus_level self) "systemd_properties" ;;
  assignments <- invoke properties "Get"
                   [VStr "org.freedesktop.systemd1.Manager"; VStr "Environment"] ;;
  items <- lift (iterate assignments) ;;
  env <- lift (parse_assignments items []) ;;
  ret env.

Definition list_units_by_patterns (self : instance) (states patterns : list string) : M value :=
  add_systemd_manager self ;;;
  manager <- getitem (dbus_level self) "systemd_manager" ;;
  invoke manager "ListUnitsByPatterns" [VList states; VList patterns].

(** [def stop_unit(self, unit: str, job_mode: str = "fail")]: [job_mode] is
    [None] here when the caller leaves it out. *)
Definition stop_unit (self : instance) (unit : string) (job_mode : option string) : M value :=
  let job_mode := default "fail" job_mode in
  add_systemd_manager self ;;;
  manager <- getitem (dbus_level self) "systemd_manager" ;;
  invoke manager "StopUnit" [VStr unit; VStr job_mode].

End DbusInteractions.

(** ** Reading the world *)

(** [objects.get(key)] inside the level [level] of the cache. *)
Definition cached (level key : string) (w : world) : option entry :=
  dbus_objects w !! level ≫= (.!! key).

(** The wrapper cached for [unit_id] in the nested dictionary. *)
Definition wrapper (level unit_id : string) (w : world) : option handle :=
  match cached level "unit_properties" w with
  | Some (Units m) => m !! unit_id
  | _ => None
  end.

(** The world after one more call to the library. *)
Definition called (c : call) (w : world) : world :=
  World (dbus_objects w) (trace w ++ [c]) (next_handle w).

(** The calls made between the worlds [w] and [w']. *)
Definition calls_since (w w' : world) : list call :=
  drop (length (trace w)) (trace w').

Definition is_method (name : string) (c : call) : bool :=
  match c with
  | Method _ n _ => String.eqb n name
  | _ => false
  end.

Definition is_remote (c : call) : bool :=
  match c with
  | Method _ _ _ => true
  | _ => false
  end.

Definition is_connect (c : call) : bool :=
  match c with
  | SystemBus | SessionBus => true
  | _ => false
  end.

(** [s] has at least one ["="]. *)
Definition has_eq (s : string) : Prop :=
  ∃ var value, s = var +:+ "=" +:+ value.

(** The name an assignment string gives a value to: the text before its
    first ["="]. *)
Definition name_of (assignment : string) : option string :=
  fst <$> partition_eq assignment.

(** ** The methods of an instance *)

Inductive method :=
| Add_systemd
| Add_systemd_manager
| Add_systemd_properties
| Add_systemd_unit_properties (unit_id : string)
| Add_dbus
| Add_dbus_interface
| Get_unit_property (unit_id unit_property : string)
| Reload_systemd
| List_systemd_jobs
| Set_dbus_vars (vars_dict : list (string * string))
| Set_systemd_vars (vars_dict : list (string * string))
| Unset_systemd_vars (vars_list : list string)
| Get_systemd_vars
| List_units_by_patterns (states patterns : list string)
| Stop_unit (unit : string) (job_mode : option string).

(** [self.method(...)]: a method without a [return] gives [None]. *)
Definition perform (lib : library) (self : instance) (m : method) : M value :=
  match m with
  | Add_systemd => add_systemd lib self ;;; ret VNone
  | Add_systemd_manager => add_systemd_manager lib self ;;; ret VNone
  | Add_systemd_properties => add_systemd_properties lib self ;;; ret VNone
  | Add_systemd_unit_properties unit_id =>
      add_systemd_unit_properties lib self unit_id ;;; ret VNone
  | Add_dbus => add_dbus lib self ;;; ret VNone
  | Add_dbus_interface => add_dbus_interface lib self ;;; ret VNone
  | Get_unit_property unit_id unit_property =>
      get_unit_property lib self unit_id unit_property
  | Reload_systemd => reload_systemd lib self
  | List_systemd_jobs => list_systemd_jobs lib self
  | Set_dbus_vars vars_dict => set_dbus_vars lib self vars_dict ;;; ret VNone
  | Set_systemd_vars vars_dict => set_systemd_vars lib self vars_dict ;;; ret VNone
  | Unset_systemd_vars vars_list => unset_systemd_vars lib self vars_list ;;; ret VNone
  | Get_systemd_vars => env <- get_systemd_vars lib self ;; ret (VDict env)
  | List_units_by_patterns states patterns =>
      list_units_by_patterns lib self states patterns
  | Stop_unit unit job_mode => stop_unit lib self unit job_mode
  end.

(** The computations put together from the steps the class is written in:
    steps that leave the world alone, calls into the library that satisfy
    [ok], and reads and writes of the cache of the level [level]. *)
Inductive built (lib : library) (level : string) (ok : call → Prop)
  : ∀ A, M A → Prop :=
| built_lift A (r : result A) : built lib level ok A (lift r)
| built_bind A B (m : M A) (k : A → M B) :
    built lib level ok A m → (∀ a, built lib level ok B (k a)) →
    built lib level ok B (bind m k)
| built_create c : ok c → built lib level ok handle (create lib c)
| built_remote c : ok c → built lib level ok value (remote lib c)
| built_level_objects : built lib level ok _ (level_objects level)
| built_store objects : built lib level ok unit (store level objects).

(** ** What a run may do

    [faithful lib m]: whenever the library raises a fault during a run of
    [m], the faulting call is the last call of the run and the run ends in
    that very fault. *)
Definition faithful (lib : library) {A} (m : M A) : Prop :=
  ∀ w, ∃ new,
    trace (snd (m w)) = (trace w ++ new)%list ∧
    ∀ before c after f,
      new = (before ++ c :: after)%list →
      fault_of lib (trace w ++ before)%list c = Some f →
      after = [] ∧ fst (m w) = Raise (DBusException f).

(** Two worlds that differ at most in the cache of the levels other than
    [level]. *)
Definition agree (level : string) (w1 w2 : world) : Prop :=
  dbus_objects w1 !! level = dbus_objects w2 !! level ∧
  trace w1 = trace w2 ∧
  next_handle w1 = next_handle w2.

(** The library call that opens the bus of a level. *)
Definition connect (level : string) : call :=
  if String.eqb level "system" then SystemBus else SessionBus.

(** ** Invariants of the cache *)

(** The entry that the accessor of [key] ensures before it creates [key]:
    [add_systemd] reads ["bus"], [add_systemd_manager] and
    [add_systemd_properties] call [add_systemd] and wrap ["systemd"],
    [add_dbus] reads ["bus"], [add_dbus_interface] calls [add_dbus] and
    wraps ["dbus"]. *)
Definition prerequisite (key : string) : option string :=
  if String.eqb key "systemd" then Some "bus"
  else if String.eqb key "systemd_manager" then Some "systemd"
  else if String.eqb key "systemd_properties" then Some "systemd"
  else if String.eqb key "dbus" then Some "bus"
  else if String.eqb key "dbus_interface" then Some "dbus"
  else None.

(** Every entry of a level has its prerequisite in the same level, and a
    wrapper of a unit has the manager interface it was looked up through. *)
Definition deps_closed (objects : gmap string entry) : Prop :=
  (∀ key pre, prerequisite key = Some pre →
     is_Some (objects !! key) → is_Some (objects !! pre))
  ∧ (∀ m unit_id, objects !! "unit_properties" = Some (Units m) →
       is_Some (m !! unit_id) → is_Some (objects !! "systemd_manager")).

(** The wrappers of the units are objects the library has created, one
    object for one unit. *)
Definition units_ok (n : handle) (m : gmap string handle) : Prop :=
  (∀ unit_id h, m !! unit_id = Some h → (h < n)%nat)
  ∧ (∀ u1 u2 h, m !! u1 = Some h → m !! u2 = Some h → u1 = u2).

Definition cache_ok (w : world) : Prop :=
  ∀ level objects, dbus_objects w !! level = Some objects →
    deps_closed objects
    ∧ ∀ m, objects !! "unit_properties" = Some (Units m) → units_ok (next_handle w) m.

(** Nothing that is cached in [w] is lost or replaced in [w']. *)
Definition grows (w w' : world) : Prop :=
  (next_handle w ≤ next_handle w')%nat ∧
  ∀ level key e, cached level key w = Some e →
    match e with
    | Handle h => cached level key w' = Some (Handle h)
    | Units m => ∃ m', cached level key w' = Some (Units m') ∧ m ⊆ m'
    end.

(** [wp m Q w]: the run of [m] from [w] ends in a result and a world that
    satisfy [Q]. *)
Definition wp {A} (m : M A) (Q : result A → world → Prop) (w : world) : Prop :=
  Q (fst (m w)) (snd (m w)).

(** What every run from [w0] keeps, and what it gives when it returns. *)
Definition post {A} (w0 : world) (P : A → world → Prop) : result A → world → Prop :=
  λ r w', cache_ok w' ∧ grows w0 w' ∧ ∀ a, r = Ok a → P a w'.

(** [keeps w0 m P w]: from a world [w] that is sound and has grown out of
    [w0], the run of [m] ends in such a world again and, when it returns
    [a], in one that satisfies [P a]. *)
Definition keeps {A} (w0 : world) (m : M A) (P : A → world → Prop) (w : world) : Prop :=
  cache_ok w → grows w0 w → wp m (post w0 P) w.

(** Worlds reached from [w] by constructions and method calls. *)
Inductive reaches (lib : library) (w : world) : world → Prop :=
| reaches_refl : reaches lib w w
| reaches_init level w' :
    reaches lib w w' → reaches lib w (snd (__init__ lib level w'))
| reaches_perform self m w' :
    reaches lib w w' → reaches lib w (snd (perform lib self m w')).

(** The [Get] call of [get_systemd_vars] on the properties interface [h]. *)
Definition Get_Environment (h : handle) : call :=
  Method h "Get" [VStr "org.freedesktop.systemd1.Manager"; VStr "Environment"].

(** ** A bus to run the class against

    A service manager whose [Environment] property is [environment], on
    which the unit [missing] is not loaded and every other call succeeds. *)
Definition stub_fault (missing : option string) (history : list call) (c : call)
  : option string :=
  match missing with
  | None => None
  | Some unit =>
      match c with
      | Method _ "GetUnit" [VStr unit_id] =>
          if String.eqb unit_id unit
          then Some "org.freedesktop.systemd1.NoSuchUnit" else None
      | _ => None
      end
  end.

Definition stub_reply (environment : list string) (history : list call) (c : call)
  : value :=
  match c with
  | Method _ "GetUnit" [VStr unit_id] =>
      VStr ("/org/freedesktop/systemd1/unit/" +:+ unit_id)
  | Method _ "Get" [VStr "org.freedesktop.systemd1.Manager"; VStr "Environment"] =>
      VList environment
  | Method _ "StopUnit" _ => VStr "/org/freedesktop/systemd1/job/7"
  | _ => VNone
  end.

Definition stub (environment : list string) (missing : option string) : library :=
  Library (stub_fault missing) (stub_reply environment).

(** The world after [DbusInteractions("session")] on the initial cache. *)
Definition session_world (lib : library) : world :=
  snd (__init__ lib "session" initial_world).

Definition session : instance := Instance "session".

(** ** Further notions about runs and caches *)

(** What a call gives its caller after the calls of [history]. *)
Definition outcome (lib : library) (history : list call) (c : call) : result value :=
  match fault_of lib history c with
  | Some f => Raise (DBusException f)
  | None => Ok (reply_of lib history c)
  end.

(** The accessors of the entries with a fixed key. *)
Definition fixed_accessor (m : method) : bool :=
  match m with
  | Add_systemd | Add_systemd_manager | Add_systemd_properties
  | Add_dbus | Add_dbus_interface => true
  | _ => false
  end.

(** The keys a method assigns to, those of the accessors it calls. *)
Definition written (m : method) : list string :=
  match m with
  | Add_systemd => ["systemd"]
  | Add_systemd_manager | Reload_systemd | List_systemd_jobs
  | Set_systemd_vars _ | Unset_systemd_vars _ | List_units_by_patterns _ _
  | Stop_unit _ _ => ["systemd"; "systemd_manager"]
  | Add_systemd_properties | Get_systemd_vars => ["systemd"; "systemd_properties"]
  | Add_systemd_unit_properties _ | Get_unit_property _ _ =>
      ["systemd"; "systemd_manager"; "unit_properties"]
  | Add_dbus => ["dbus"]
  | Add_dbus_interface | Set_dbus_vars _ => ["dbus"; "dbus_interface"]
  end.

(** The keys that appear in the source. *)
Definition known_keys : list string :=
  ["bus"; "systemd"; "systemd_manager"; "systemd_properties"; "unit_properties";
   "dbus"; "dbus_interface"].

(** Under ["unit_properties"] the cache holds the nested dictionary, under
    every other key an object of the library. *)
Definition well_shaped (key : string) (e : entry) : Prop :=
  match e with
  | Handle _ => key ≠ "unit_properties"
  | Units _ => key = "unit_properties"
  end.

Definition shaped (w : world) : Prop :=
  ∀ level key e, cached level key w = Some e → well_shaped key e.

(** The computations that assign, in the cache of [level], to the keys
    [keys] only, and store under a key what belongs there. *)
Inductive writes (lib : library) (level : string) (keys : list string)
  : ∀ A, M A → Prop :=
| writes_lift A (r : result A) : writes lib level keys A (lift r)
| writes_bind A B (m : M A) (k : A → M B) :
    writes lib level keys A m → (∀ a, writes lib level keys B (k a)) →
    writes lib level keys B (bind m k)
| writes_create c : writes lib level keys handle (create lib c)
| writes_remote c : writes lib level keys value (remote lib c)
| writes_level_objects : writes lib level keys _ (level_objects level)
| writes_setitem key e :
    key ∈ keys → well_shaped key e → writes lib level keys unit (setitem level key e).

(** The exceptions a method may end in: a fault of the bus library or, in
    [get_systemd_vars], a reply that cannot be read. *)
Definition is_fault (e : exn) : Prop := ∃ f, e = DBusException f.

Definition unreadable (e : exn) : Prop :=
  e = ValueError "not enough values to unpack"
  ∨ e = TypeError "'NoneType' object is not iterable".

(** A level in which an instance can work: its bus is cached and every
    entry holds what belongs under its key. *)
Definition ready (level : string) (w : world) : Prop :=
  is_Some (cached level "bus" w)
  ∧ ∀ key e, cached level key w = Some e → well_shaped key e.

(** [safe level E m P w]: from a world in which [level] is ready, the run of
    [m] leaves it ready, returns only values that satisfy [P] and raises
    only exceptions that satisfy [E]. *)
Definition safe (level : string) (E : exn → Prop) {A} (m : M A)
    (P : A → world → Prop) (w : world) : Prop :=
  ready level w →
  match m w with
  | (Ok a, w') => ready level w' ∧ P a w'
  | (Raise e, w') => ready level w' ∧ E e
  end.

(** The names the assignment strings of [items] give a value to. *)
Definition names_of (items : list string) : list string :=
  omap name_of items.

(** ** Running binds *)

Lemma bind_Ok {A B} (m : M A) (k : A → M B) w a w' :
  m w = (Ok a, w') → bind m k w = k a w'.
Proof. intros H. unfold bind. by rewrite H. Qed.

Lemma contains_run level key w objects :
  dbus_objects w !! level = Some objects →
  contains level key w = (Ok (bool_decide (is_Some (objects !! key))), w).
Proof. intros H. unfold contains, level_objects, bind, ret. by rewrite H. Qed.

Lemma getitem_run level key w objects e :
  dbus_objects w !! level = Some objects → objects !! key = Some e →
  getitem level key w = (Ok e, w).
Proof.
  intros H1 H2. unfold getitem, level_objects, bind, ret. by rewrite H1, H2.
Qed.

Lemma getitem_cached level key w e :
  cached level key w = Some e → getitem level key w = (Ok e, w).
Proof.
  unfold cached. destruct (dbus_objects w !! level) as [objects|] eqn:H1; [|done].
  simpl. intros H2. by eapply getitem_run.
Qed.

Lemma setitem_run level key e w objects :
  dbus_objects w !! level = Some objects →
  setitem level key e w =
    (Ok tt, World (<[level := <[key := e]> objects]> (dbus_objects w))
              (trace w) (next_handle w)).
Proof. intros H. unfold setitem, store, level_objects, bind. by rewrite H. Qed.

Lemma invoke_run lib h name args w :
  invoke lib (Handle h) name args w =
    (match fault_of lib (trace w) (Method h name args) with
     | Some f => Raise (DBusException f)
     | None => Ok (reply_of lib (trace w) (Method h name args))
     end, called (Method h name args) w).
Proof.
  unfold invoke, attribute, remote, bind, ret, called. simpl.
  by destruct (fault_of lib (trace w) (Method h name args)).
Qed.

Lemma create_run lib c w :
  fault_of lib (trace w) c = None →
  create lib c w =
    (Ok (next_handle w), World (dbus_objects w) (trace w ++ [c]) (S (next_handle w))).
Proof. intros H. unfold create. by rewrite H. Qed.

(** ** Splitting assignment strings *)

Lemma partition_eq_app var value :
  partition_eq var = None → partition_eq (var +:+ "=" +:+ value) = Some (var, value).
Proof.
  induction var as [|c var IH]; simpl; [done|].
  destruct (Ascii.eqb c "=") eqn:Hc; [done|].
  destruct (partition_eq var) as [[??]|] eqn:Hp; [done|].
  intros _. by rewrite IH.
Qed.

Lemma partition_eq_Some s var value :
  partition_eq s = Some (var, value) →
  s = var +:+ "=" +:+ value ∧ partition_eq var = None.
Proof.
  revert var value. induction s as [|c s IH]; simpl; [done|].
  intros var value. destruct (Ascii.eqb c "=") eqn:Hc.
  - apply Ascii.eqb_eq in Hc as ->. by intros [= <- <-].
  - destruct (partition_eq s) as [[v1 v2]|] eqn:Hp; [|done].
    intros [= <- <-]. destruct (IH _ _ eq_refl) as [-> Hn].
    simpl. by rewrite Hc, Hn.
Qed.

Lemma partition_eq_None_app var value :
  partition_eq (var +:+ "=" +:+ value) ≠ None.
Proof.
  induction var as [|c var IH]; simpl; [done|].
  destruct (Ascii.eqb c "="); [done|].
  by destruct (partition_eq (var +:+ "=" +:+ value)) as [[??]|].
Qed.

Lemma has_eq_partition s : has_eq s ↔ is_Some (partition_eq s).
Proof.
  split.
  - intros (var & value & ->).
    destruct (partition_eq (var +:+ "=" +:+ value)) eqn:H; [eauto|].
    by apply partition_eq_None_app in H.
  - intros [[var value] H]. apply partition_eq_Some in H as [-> _].
    by exists var, value.
Qed.

Lemma unpack2_split s :
  unpack2 (split_maxsplit1 s) =
    match partition_eq s with
    | Some p => Ok p
    | None => Raise (ValueError "not enough values to unpack")
    end.
Proof. unfold split_maxsplit1. by destruct (partition_eq s) as [[??]|]. Qed.

Lemma dict_get_update d k v k' :
  dict_get (dict_update d k v) k' = if String.eqb k k' then Some v else dict_get d k'.
Proof.
  induction d as [|[k0 v0] d IH]; simpl.
  - done.
  - destruct (String.eqb k0 k) eqn:H0; simpl.
    + apply String.eqb_eq in H0. subst k0. by destruct (String.eqb k k').
    + rewrite IH. destruct (String.eqb k k') eqn:H1; [|done].
      apply String.eqb_eq in H1. subst k'. by rewrite H0.
Qed.

Lemma parse_assignments_Ok items env :
  Forall has_eq items ↔ ∃ env', parse_assignments items env = Ok env'.
Proof.
  revert env. induction items as [|a items IH]; intros env; simpl.
  - split; eauto.
  - rewrite unpack2_split, Forall_cons, has_eq_partition.
    destruct (partition_eq a) as [[var value]|]; simpl.
    + rewrite (IH (dict_update env var value)).
      split; [by intros [_ ?]|by intros ?; split; [eexists|]].
    + split; [by intros [[? [=]] _]|by intros [? [=]]].
Qed.

Lemma parse_assignments_Raise items env e :
  parse_assignments items env = Raise e →
  e = ValueError "not enough values to unpack".
Proof.
  revert env. induction items as [|a items IH]; intros env; simpl; [done|].
  rewrite unpack2_split. destruct (partition_eq a) as [[var value]|]; simpl.
  - apply IH.
  - by intros [= <-].
Qed.

(** The value under [var] after the loop: that of the last assignment to
    [var], or the one [env] had when there is none. *)
Lemma parse_assignments_last items : ∀ env env' before var value after,
  items = (before ++ (var +:+ "=" +:+ value) :: after)%list →
  partition_eq var = None →
  Forall (λ a, name_of a ≠ Some var) after →
  parse_assignments items env = Ok env' →
  dict_get env' var = Some value.
Proof.
  assert (Hafter : ∀ after env env' var value,
    Forall (λ a, name_of a ≠ Some var) after →
    dict_get env var = Some value →
    parse_assignments after env = Ok env' → dict_get env' var = Some value).
  { induction after as [|a after IH]; intros env env' var value Hn Hg; simpl.
    - by intros [= <-].
    - rewrite unpack2_split. apply Forall_cons in Hn as [Ha Hn].
      destruct (partition_eq a) as [[var' value']|] eqn:Hp; [|done].
      apply IH; [done|]. rewrite dict_get_update.
      destruct (String.eqb var' var) eqn:Hv; [|done].
      apply String.eqb_eq in Hv as ->. unfold name_of in Ha.
      by rewrite Hp in Ha. }
  induction items as [|a items IH]; intros env env' before var value after Hi Hv Hn.
  - by destruct before.
  - destruct before as [|b before]; simpl in Hi; injection Hi as -> ->; simpl;
      rewrite unpack2_split.
    + rewrite partition_eq_app by done. apply Hafter; [done|].
      by rewrite dict_get_update, String.eqb_refl.
    + destruct (partition_eq b) as [[var' value']|]; [|done].
      by eapply IH.
Qed.

(** ** [get_systemd_vars] *)

(** Once the properties interface [h] is in place, [get_systemd_vars] makes
    the one [Get] call and, when that returns the array [items], hands its
    strings to the parsing loop. *)
Lemma get_systemd_vars_run lib self w w1 h items :
  add_systemd_properties lib self w = (Ok tt, w1) →
  cached (dbus_level self) "systemd_properties" w1 = Some (Handle h) →
  fault_of lib (trace w1) (Get_Environment h) = None →
  reply_of lib (trace w1) (Get_Environment h) = VList items →
  get_systemd_vars lib self w =
    (parse_assignments items [], called (Get_Environment h) w1).
Proof.
  intros Hready Hiface Hfault Hreply. unfold get_systemd_vars.
  rewrite (bind_Ok _ _ _ _ _ Hready).
  rewrite (bind_Ok _ _ _ _ _ (getitem_cached _ _ _ _ Hiface)).
  erewrite bind_Ok; [|rewrite invoke_run; fold (Get_Environment h); by rewrite Hfault].
  rewrite Hreply. unfold bind, lift, ret. simpl.
  by destruct (parse_assignments items []).
Qed.

(** C2: [get_systemd_vars] splits every assignment string of the remote
    [Environment] on its first ["="] only, so that a value keeps its own
    ["="] signs, and a later assignment to a name replaces an earlier one:
    the value returned under a name is that of its last assignment.
    [["A=1", "B=two=three"]] gives [{A: "1", B: "two=three"}] and
    [["A=1", "A=2"]] gives [{A: "2"}]. *)
Theorem get_systemd_vars_parses lib self w w1 h items :
  add_systemd_properties lib self w = (Ok tt, w1) →
  cached (dbus_level self) "systemd_properties" w1 = Some (Handle h) →
  fault_of lib (trace w1) (Get_Environment h) = None →
  reply_of lib (trace w1) (Get_Environment h) = VList items →
  get_systemd_vars lib self w =
    (parse_assignments items [], called (Get_Environment h) w1)
  ∧ (∀ var value, ¬ has_eq var →
       split_maxsplit1 (var +:+ "=" +:+ value) = [var; value])
  ∧ (∀ env before var value after,
       items = (before ++ (var +:+ "=" +:+ value) :: after)%list →
       ¬ has_eq var →
       Forall (λ a, name_of a ≠ Some var) after →
       fst (get_systemd_vars lib self w) = Ok env →
       dict_get env var = Some value)
  ∧ (items = ["A=1"; "B=two=three"] →
       fst (get_systemd_vars lib self w) = Ok [("A", "1"); ("B", "two=three")])
  ∧ (items = ["A=1"; "A=2"] →
       fst (get_systemd_vars lib self w) = Ok [("A", "2")]).
Proof.
  intros Hready Hiface Hfault Hreply.
  pose proof (get_systemd_vars_run lib self w w1 h items Hready Hiface Hfault Hreply)
    as Hrun.
  assert (Hnone : ∀ var, ¬ has_eq var → partition_eq var = None).
  { intros var Hv. destruct (partition_eq var) eqn:Hp; [|done].
    destruct Hv. apply has_eq_partition. by rewrite Hp. }
  split; [done|]. rewrite Hrun. simpl. repeat split.
  - intros var value Hv. unfold split_maxsplit1.
    by rewrite partition_eq_app by auto.
  - intros env before var value after Hitems Hv Hafter Hparse.
    eapply parse_assignments_last; eauto.
  - by intros ->.
  - by intros ->.
Qed.

Lemma get_systemd_vars_parses_witness :
  fst (get_systemd_vars (stub ["A=1"; "A=2"] None) session
         (session_world (stub ["A=1"; "A=2"] None))) = Ok [("A", "2")].
Proof.
  set (lib := stub ["A=1"; "A=2"] None).
  refine (proj2 (proj2 (proj2 (proj2
    (get_systemd_vars_parses lib session (session_world lib)
       (snd (add_systemd_properties lib session (session_world lib)))
       2 ["A=1"; "A=2"] _ _ _ _)))) _); reflexivity.
Defined.

(** C5: an assignment string without ["="] makes [get_systemd_vars] fail:
    the split gives one part, unpacking it into [var, value] raises
    [ValueError], and nothing skips or repairs the entry.  The method returns
    normally exactly when every string of the remote [Environment] has an
    ["="]. *)
Theorem get_systemd_vars_malformed lib self w w1 h items :
  add_systemd_properties lib self w = (Ok tt, w1) →
  cached (dbus_level self) "systemd_properties" w1 = Some (Handle h) →
  fault_of lib (trace w1) (Get_Environment h) = None →
  reply_of lib (trace w1) (Get_Environment h) = VList items →
  ((∃ env, fst (get_systemd_vars lib self w) = Ok env) ↔ Forall has_eq items)
  ∧ (¬ Forall has_eq items →
       fst (get_systemd_vars lib self w) =
         Raise (ValueError "not enough values to unpack")).
Proof.
  intros Hready Hiface Hfault Hreply.
  rewrite (get_systemd_vars_run lib self w w1 h items Hready Hiface Hfault Hreply).
  simpl. split.
  - symmetry. apply parse_assignments_Ok.
  - intros Hbad. destruct (parse_assignments items []) as [env|e] eqn:Hp.
    + destruct Hbad. apply (parse_assignments_Ok items []). eauto.
    + by rewrite (parse_assignments_Raise _ _ _ Hp).
Qed.

Lemma get_systemd_vars_malformed_witness :
  fst (get_systemd_vars (stub ["A=1"; "oops"] None) session
         (session_world (stub ["A=1"; "oops"] None)))
  = Raise (ValueError "not enough values to unpack").
Proof.
  set (lib := stub ["A=1"; "oops"] None).
  refine (proj2
    (get_systemd_vars_malformed lib session (session_world lib)
       (snd (add_systemd_properties lib session (session_world lib)))
       2 ["A=1"; "oops"] _ _ _ _) _); try reflexivity.
  intros H. apply Forall_cons in H as [_ H]. apply Forall_cons in H as [H _].
  apply has_eq_partition in H. by destruct H.
Defined.

(** ** Every method is built from the steps of its own level *)

Section Built.

Variable lib : library.
Variable level : string.
Variable ok : call → Prop.

Lemma built_ret {A} (a : A) : built lib level ok A (ret a).
Proof. exact (built_lift lib level ok A (Ok a)). Qed.

Lemma built_raise {A} (e : exn) : built lib level ok A (raise e).
Proof. exact (built_lift lib level ok A (Raise e)). Qed.

Ltac build :=
  repeat (cbv zeta;
          first [ match goal with
                  | H : _ |- built _ _ _ _ _ => simple apply H
                  end
                | simple apply built_bind; [|intros ?]
                | simple apply built_ret
                | simple apply built_raise
                | simple apply built_lift
                | simple apply built_level_objects
                | simple apply built_store
                | simple apply built_create
                | simple apply built_remote
                | match goal with
                  | |- built _ _ _ _ (if ?b then _ else _) => destruct b
                  | |- built _ _ _ _ (match ?e with _ => _ end) => destruct e
                  | H : ∀ c, _ → ok c |- ok _ => apply H; reflexivity
                  | H : ∀ c, ok c |- ok _ => apply H
                  end ]).

Lemma built_attribute obj name : built lib level ok _ (attribute obj name).
Proof. unfold attribute. build. Qed.

Lemma built_invoke obj name args :
  (∀ c, ok c) → built lib level ok _ (invoke lib obj name args).
Proof. intros Hok. unfold invoke. pose proof built_attribute. build. Qed.

Lemma built_contains key : built lib level ok _ (contains level key).
Proof. unfold contains. build. Qed.

Lemma built_getitem key : built lib level ok _ (getitem level key).
Proof. unfold getitem. build. Qed.

Lemma built_setitem key e : built lib level ok _ (setitem level key e).
Proof. unfold setitem. build. Qed.

Lemma built_contains_unit unit_id : built lib level ok _ (contains_unit level unit_id).
Proof. unfold contains_unit. pose proof built_getitem. build. Qed.

Lemma built_getitem_unit unit_id : built lib level ok _ (getitem_unit level unit_id).
Proof. unfold getitem_unit. pose proof built_getitem. build. Qed.

Lemma built_setitem_unit unit_id h : built lib level ok _ (setitem_unit level unit_id h).
Proof.
  unfold setitem_unit. pose proof built_getitem. pose proof built_setitem. build.
Qed.

Hypothesis ok_create : ∀ c, is_remote c = false → ok c.

Lemma built_init : built lib level ok _ (__init__ lib level).
Proof.
  unfold __init__. pose proof built_contains. pose proof built_setitem. build.
Qed.

Variable self : instance.
Hypothesis self_level : dbus_level self = level.

Lemma built_add_systemd : built lib level ok _ (add_systemd lib self).
Proof.
  unfold add_systemd. rewrite self_level.
  pose proof built_contains. pose proof built_getitem. pose proof built_setitem.
  pose proof built_attribute. build.
Qed.

Lemma built_add_systemd_manager : built lib level ok _ (add_systemd_manager lib self).
Proof.
  unfold add_systemd_manager. rewrite self_level.
  pose proof built_contains. pose proof built_getitem. pose proof built_setitem.
  pose proof built_add_systemd. build.
Qed.

Lemma built_add_systemd_properties :
  built lib level ok _ (add_systemd_properties lib self).
Proof.
  unfold add_systemd_properties. rewrite self_level.
  pose proof built_contains. pose proof built_getitem. pose proof built_setitem.
  pose proof built_add_systemd. build.
Qed.

Lemma built_add_dbus : built lib level ok _ (add_dbus lib self).
Proof.
  unfold add_dbus. rewrite self_level.
  pose proof built_contains. pose proof built_getitem. pose proof built_setitem.
  pose proof built_attribute. build.
Qed.

Lemma built_add_dbus_interface : built lib level ok _ (add_dbus_interface lib self).
Proof.
  unfold add_dbus_interface. rewrite self_level.
  pose proof built_contains. pose proof built_getitem. pose proof built_setitem.
  pose proof built_add_dbus. build.
Qed.

Hypothesis ok_all : ∀ c, ok c.

Lemma built_add_systemd_unit_properties unit_id :
  built lib level ok _ (add_systemd_unit_properties lib self unit_id).
Proof.
  unfold add_systemd_unit_properties. rewrite self_level.
  pose proof built_contains. pose proof built_getitem. pose proof built_setitem.
  pose proof built_attribute. pose proof built_add_systemd_manager.
  pose proof built_contains_unit. pose proof built_setitem_unit.
  pose proof (λ obj name args, built_invoke obj name args ok_all). build.
Qed.

Lemma built_perform m : built lib level ok _ (perform lib self m).
Proof.
  pose proof built_getitem. pose proof built_getitem_unit.
  pose proof built_add_systemd. pose proof built_add_systemd_manager.
  pose proof built_add_systemd_properties. pose proof built_add_dbus.
  pose proof built_add_dbus_interface. pose proof built_add_systemd_unit_properties.
  pose proof (λ obj name args, built_invoke obj name args ok_all).
  destruct m; unfold perform, get_unit_property, reload_systemd, list_systemd_jobs,
    set_dbus_vars, set_systemd_vars, unset_systemd_vars, get_systemd_vars,
    list_units_by_patterns, stop_unit; rewrite ?self_level; build.
Qed.

End Built.

(** ** What follows from being built that way *)

Section Semantics.

Variable lib : library.
Variable level : string.
Variable ok : call → Prop.

(** The calls of a run are added to the end of the trace, and all satisfy [ok]. *)
Lemma built_emits A (m : M A) :
  built lib level ok A m →
  ∀ w, ∃ new, trace (snd (m w)) = (trace w ++ new)%list ∧ Forall ok new.
Proof.
  induction 1 as [A r|A B m k _ IHm _ IHk|c Hc|c Hc| |objects]; intros w.
  - exists []. by rewrite app_nil_r.
  - unfold bind. destruct (IHm w) as (new1 & Ht1 & Hok1).
    destruct (m w) as [[a|e] w1]; simpl in *; [|by eauto].
    destruct (IHk a w1) as (new2 & Ht2 & Hok2). exists (new1 ++ new2)%list.
    rewrite Ht2, Ht1, app_assoc. split; [done|]. by apply Forall_app.
  - exists [c]. unfold create. destruct (fault_of lib (trace w) c); simpl; auto.
  - exists [c]. unfold remote. destruct (fault_of lib (trace w) c); simpl; auto.
  - exists []. unfold level_objects.
    destruct (dbus_objects w !! level); simpl; by rewrite app_nil_r.
  - exists []. simpl. by rewrite app_nil_r.
Qed.

(** A fault of the library ends the run and is its result. *)
Lemma built_faithful A (m : M A) : built lib level ok A m → faithful lib m.
Proof.
  induction 1 as [A r|A B m k _ IHm _ IHk|c Hc|c Hc| |objects]; intros w.
  - exists []. split; [by rewrite app_nil_r|]. by intros [|??] ????.
  - unfold bind. destruct (IHm w) as (new1 & Ht1 & Hf1).
    destruct (m w) as [[a|e] w1] eqn:Hm; simpl in *;
      [|exists new1; split; [done|]; intros before c after f Hsplit Hfault;
        by destruct (Hf1 before c after f Hsplit Hfault) as [-> [= ->]]].
    destruct (IHk a w1) as (new2 & Ht2 & Hf2). exists (new1 ++ new2)%list.
    rewrite Ht2, Ht1, app_assoc. split; [done|].
    intros before c after f Hsplit Hfault.
    apply app_eq_inv in Hsplit as [(l & -> & Hl)|(l & -> & ->)].
    + destruct l as [|c' l]; simpl in Hl.
      * subst new2. apply (Hf2 [] c after f); [done|].
        by rewrite app_nil_r, Ht1, app_nil_r.
      * injection Hl as <- ->. by destruct (Hf1 before c l f eq_refl Hfault).
    + apply (Hf2 l c after f); [done|]. by rewrite Ht1, <-app_assoc.
  - exists [c]. unfold create.
    destruct (fault_of lib (trace w) c) as [f|] eqn:Hfault; simpl;
      (split; [done|]); intros [|? [|??]] c' after f' [= <- <-];
      rewrite app_nil_r, Hfault; by intros [= <-].
  - exists [c]. unfold remote.
    destruct (fault_of lib (trace w) c) as [f|] eqn:Hfault; simpl;
      (split; [done|]); intros [|? [|??]] c' after f' [= <- <-];
      rewrite app_nil_r, Hfault; by intros [= <-].
  - exists []. unfold level_objects.
    destruct (dbus_objects w !! level); simpl;
      (split; [by rewrite app_nil_r|]); by intros [|??] ????.
  - exists []. simpl. split; [by rewrite app_nil_r|]. by intros [|??] ????.
Qed.

(** The cache of every other level is left as it was. *)
Lemma built_frame A (m : M A) :
  built lib level ok A m →
  ∀ w other, other ≠ level →
    dbus_objects (snd (m w)) !! other = dbus_objects w !! other.
Proof.
  induction 1 as [A r|A B m k _ IHm _ IHk|c Hc|c Hc| |objects];
    intros w other Hother.
  - done.
  - unfold bind. specialize (IHm w other Hother).
    destruct (m w) as [[a|e] w1]; simpl in *; [|done].
    by rewrite IHk.
  - unfold create. by destruct (fault_of lib (trace w) c).
  - unfold remote. by destruct (fault_of lib (trace w) c).
  - unfold level_objects. by destruct (dbus_objects w !! level).
  - simpl. by rewrite lookup_insert_ne.
Qed.

(** A run sees of the cache only its own level. *)
Lemma built_local A (m : M A) :
  built lib level ok A m →
  ∀ w1 w2, agree level w1 w2 →
    fst (m w1) = fst (m w2) ∧ agree level (snd (m w1)) (snd (m w2)).
Proof.
  induction 1 as [A r|A B m k _ IHm _ IHk|c Hc|c Hc| |objects];
    intros w1 w2 Hagree.
  - done.
  - unfold bind. specialize (IHm w1 w2 Hagree).
    destruct (m w1) as [[a1|e1] w1'], (m w2) as [[a2|e2] w2'];
      simpl in *; destruct IHm as [[=] Hagree']; subst; auto.
  - destruct Hagree as (Ho & Ht & Hn). unfold create, agree. rewrite Ht, Hn.
    by destruct (fault_of lib (trace w2) c).
  - destruct Hagree as (Ho & Ht & Hn). unfold remote, agree. rewrite Ht, Hn.
    by destruct (fault_of lib (trace w2) c).
  - pose proof Hagree as (Ho & Ht & Hn). unfold level_objects. rewrite Ho.
    by destruct (dbus_objects w2 !! level).
  - destruct Hagree as (Ho & Ht & Hn). unfold agree. simpl.
    by rewrite !lookup_insert_eq.
Qed.

End Semantics.

(** ** Faults of the bus library *)

Lemma built_perform_any lib self m :
  built lib (dbus_level self) (λ _, True) _ (perform lib self m).
Proof. by apply built_perform. Qed.

Lemma built_init_any lib level : built lib level (λ _, True) _ (__init__ lib level).
Proof. by apply built_init. Qed.

(** C9: a fault that the bus library raises during a call made by the
    constructor or by any method of an instance, [get_unit_property] on a
    unit that is not there among them, reaches the caller as it is: the
    faulting call is the last call the run makes (no retry, nothing after
    it) and the run ends by raising that same fault. *)
Theorem remote_faults_propagate lib :
  (∀ level, faithful lib (__init__ lib level))
  ∧ (∀ self m, faithful lib (perform lib self m))
  ∧ (∀ self unit_id unit_property w before c after f,
       calls_since w (snd (get_unit_property lib self unit_id unit_property w))
         = (before ++ c :: after)%list →
       fault_of lib (trace w ++ before)%list c = Some f →
       after = [] ∧
       fst (get_unit_property lib self unit_id unit_property w)
         = Raise (DBusException f)).
Proof.
  split; [|split].
  - intros level. eapply built_faithful, built_init_any.
  - intros self m. eapply built_faithful, built_perform_any.
  - intros self unit_id unit_property w before c after f Hcalls Hfault.
    destruct (built_faithful _ _ _ _ _
                (built_perform_any lib self (Get_unit_property unit_id unit_property)) w)
      as (new & Ht & Hf).
    simpl in Ht, Hf. unfold calls_since in Hcalls.
    rewrite Ht, drop_app_length in Hcalls. eauto.
Qed.

Lemma remote_faults_propagate_witness :
  fst (get_unit_property (stub [] (Some "nope.service")) session
         "nope.service" "ActiveState" (session_world (stub [] (Some "nope.service"))))
  = Raise (DBusException "org.freedesktop.systemd1.NoSuchUnit").
Proof.
  set (lib := stub [] (Some "nope.service")).
  refine (proj2 (proj2 (proj2 (remote_faults_propagate lib)) session
    "nope.service" "ActiveState" (session_world lib)
    [GetObject 0 "org.freedesktop.systemd1" (VStr "/org/freedesktop/systemd1");
     Interface (Handle 1) "org.freedesktop.systemd1.Manager"]
    (Method 2 "GetUnit" [VStr "nope.service"]) []
    "org.freedesktop.systemd1.NoSuchUnit" _ _)); reflexivity.
Defined.

(** ** Level isolation *)

(** C10: the constructor for a level and every method of an instance of
    that level leave the cache of the other level as they found it, and
    neither their result nor what they do to their own level and to the bus
    depends on the cache of the other level. *)
Theorem level_isolation lib :
  (∀ level w other, other ≠ level →
     dbus_objects (snd (__init__ lib level w)) !! other = dbus_objects w !! other)
  ∧ (∀ self m w other, other ≠ dbus_level self →
       dbus_objects (snd (perform lib self m w)) !! other = dbus_objects w !! other)
  ∧ (∀ level w1 w2, agree level w1 w2 →
       fst (__init__ lib level w1) = fst (__init__ lib level w2) ∧
       agree level (snd (__init__ lib level w1)) (snd (__init__ lib level w2)))
  ∧ (∀ self m w1 w2, agree (dbus_level self) w1 w2 →
       fst (perform lib self m w1) = fst (perform lib self m w2) ∧
       agree (dbus_level self) (snd (perform lib self m w1)) (snd (perform lib self m w2))).
Proof.
  split; [|split; [|split]].
  - intros level. eapply built_frame, built_init_any.
  - intros self m. eapply built_frame, built_perform_any.
  - intros level. eapply built_local, built_init_any.
  - intros self m. eapply built_local, built_perform_any.
Qed.

Lemma level_isolation_witness :
  dbus_objects
    (snd (perform (stub [] None) session (Add_systemd_unit_properties "foo.service")
            (session_world (stub [] None)))) !! "system"
  = dbus_objects (session_world (stub [] None)) !! "system".
Proof.
  refine (proj1 (proj2 (level_isolation (stub [] None))) session
            (Add_systemd_unit_properties "foo.service")
            (session_world (stub [] None)) "system" _).
  simpl. discriminate.
Defined.

(** ** Calls made through the manager interface *)

Lemma filter_remote_nil new :
  Forall (λ c, is_remote c = false) new → List.filter is_remote new = [].
Proof.
  induction 1 as [|c new Hc _ IH]; simpl; [done|]. by rewrite Hc.
Qed.

(** [add_systemd_manager] creates objects and makes no remote call. *)
Lemma add_systemd_manager_calls lib self w :
  ∃ new, trace (snd (add_systemd_manager lib self w)) = (trace w ++ new)%list ∧
         List.filter is_remote new = [].
Proof.
  destruct (built_emits lib (dbus_level self) (λ c, is_remote c = false) _
              (add_systemd_manager lib self)
              (built_add_systemd_manager _ _ _ (λ _ H, H) _ eq_refl) w)
    as (new & Ht & Hnew).
  exists new. split; [done|]. by apply filter_remote_nil.
Qed.

(** A method that, once the manager interface [h] is in place, makes the one
    call [c] on it. *)
Lemma manager_call_run lib self w w1 h name args :
  add_systemd_manager lib self w = (Ok tt, w1) →
  cached (dbus_level self) "systemd_manager" w1 = Some (Handle h) →
  (add_systemd_manager lib self ;;;
   manager <- getitem (dbus_level self) "systemd_manager" ;;
   invoke lib manager name args) w
  = (match fault_of lib (trace w1) (Method h name args) with
     | Some f => Raise (DBusException f)
     | None => Ok (reply_of lib (trace w1) (Method h name args))
     end, called (Method h name args) w1)
  ∧ List.filter is_remote (calls_since w (called (Method h name args) w1))
    = [Method h name args].
Proof.
  intros Hready Hmanager. split.
  - rewrite (bind_Ok _ _ _ _ _ Hready).
    rewrite (bind_Ok _ _ _ _ _ (getitem_cached _ _ _ _ Hmanager)).
    apply invoke_run.
  - destruct (add_systemd_manager_calls lib self w) as (new & Ht & Hnew).
    rewrite Hready in Ht. simpl in Ht. unfold calls_since, called. simpl.
    rewrite Ht, <-app_assoc, drop_app_length, List.filter_app, Hnew. done.
Qed.

(** C7: [set_systemd_vars] makes exactly one remote call, [SetEnvironment],
    whose argument lists one string [NAME=value] for every item of the
    dictionary, in the order in which the dictionary iterates:
    [{"X": "y", "Z": "1 2"}] sends [["X=y", "Z=1 2"]]. *)
Theorem set_systemd_vars_call lib self vars_dict w w1 h :
  add_systemd_manager lib self w = (Ok tt, w1) →
  cached (dbus_level self) "systemd_manager" w1 = Some (Handle h) →
  let sent := snd (set_systemd_vars lib self vars_dict w) in
  List.filter is_remote (calls_since w sent)
    = [Method h "SetEnvironment" [VList (format_assignments vars_dict)]]
  ∧ length (format_assignments vars_dict) = length vars_dict
  ∧ (∀ i var value, vars_dict !! i = Some (var, value) →
       format_assignments vars_dict !! i = Some (var +:+ "=" +:+ value))
  ∧ (vars_dict = [("X", "y"); ("Z", "1 2")] →
       List.filter is_remote (calls_since w sent)
         = [Method h "SetEnvironment" [VList ["X=y"; "Z=1 2"]]]).
Proof.
  intros Hready Hmanager sent.
  destruct (manager_call_run lib self w w1 h "SetEnvironment"
              [VList (format_assignments vars_dict)] Hready Hmanager) as [Hrun Hcalls].
  assert (Hsent : sent = called (Method h "SetEnvironment"
                                  [VList (format_assignments vars_dict)]) w1).
  { unfold sent, set_systemd_vars. cbv zeta.
    rewrite (bind_Ok _ _ _ _ _ Hready).
    rewrite (bind_Ok _ _ _ _ _ (getitem_cached _ _ _ _ Hmanager)).
    unfold bind. rewrite invoke_run.
    by destruct (fault_of lib (trace w1) _). }
  rewrite Hsent. split; [done|]. split; [|split].
  - apply length_map.
  - intros i var value Hi. unfold format_assignments.
    by rewrite list_lookup_fmap, Hi.
  - intros ->. by rewrite Hcalls.
Qed.

Lemma set_systemd_vars_call_witness :
  List.filter is_remote
    (calls_since (session_world (stub [] None))
       (snd (set_systemd_vars (stub [] None) session [("X", "y"); ("Z", "1 2")]
               (session_world (stub [] None)))))
  = [Method 2 "SetEnvironment" [VList ["X=y"; "Z=1 2"]]].
Proof.
  set (lib := stub [] None).
  refine (proj2 (proj2 (proj2
    (set_systemd_vars_call lib session [("X", "y"); ("Z", "1 2")] (session_world lib)
       (snd (add_systemd_manager lib session (session_world lib))) 2 _ _))) _);
    reflexivity.
Defined.

(** C8: [stop_unit] called with a unit name alone makes the remote call
    [StopUnit(unit, "fail")], the default of [job_mode], as its one remote
    call, and returns to the caller what that call returns; a job mode that
    is given is sent in its place. *)
Theorem stop_unit_default lib self unit w w1 h :
  add_systemd_manager lib self w = (Ok tt, w1) →
  cached (dbus_level self) "systemd_manager" w1 = Some (Handle h) →
  (∀ c, c = Method h "StopUnit" [VStr unit; VStr "fail"] →
     stop_unit lib self unit None w
       = (match fault_of lib (trace w1) c with
          | Some f => Raise (DBusException f)
          | None => Ok (reply_of lib (trace w1) c)
          end, called c w1)
     ∧ List.filter is_remote (calls_since w (snd (stop_unit lib self unit None w)))
       = [c])
  ∧ (∀ job_mode c, c = Method h "StopUnit" [VStr unit; VStr job_mode] →
       stop_unit lib self unit (Some job_mode) w
         = (match fault_of lib (trace w1) c with
            | Some f => Raise (DBusException f)
            | None => Ok (reply_of lib (trace w1) c)
            end, called c w1)).
Proof.
  intros Hready Hmanager. split.
  - intros c ->.
    destruct (manager_call_run lib self w w1 h "StopUnit" [VStr unit; VStr "fail"]
                Hready Hmanager) as [Hrun Hcalls].
    unfold stop_unit. simpl. by rewrite Hrun.
  - intros job_mode c ->.
    by destruct (manager_call_run lib self w w1 h "StopUnit"
                   [VStr unit; VStr job_mode] Hready Hmanager) as [Hrun _].
Qed.

Lemma stop_unit_default_witness :
  stop_unit (stub [] None) session "foo.service" None (session_world (stub [] None))
  = (Ok (VStr "/org/freedesktop/systemd1/job/7"),
     called (Method 2 "StopUnit" [VStr "foo.service"; VStr "fail"])
       (snd (add_systemd_manager (stub [] None) session (session_world (stub [] None))))).
Proof.
  set (lib := stub [] None).
  refine (proj1 (proj1
    (stop_unit_default lib session "foo.service" (session_world lib)
       (snd (add_systemd_manager lib session (session_world lib))) 2 _ _) _ eq_refl));
    reflexivity.
Defined.

(** ** Construction *)

Lemma init_invalid lib level w :
  level ≠ "system" → level ≠ "session" →
  __init__ lib level w =
    (Raise (ValueError ("dbus_level can be 'system' or 'session', got '"
                        +:+ level +:+ "'")), w).
Proof.
  intros H1 H2. unfold __init__. rewrite bool_decide_eq_false_2; [done|].
  rewrite !elem_of_cons, elem_of_nil. tauto.
Qed.

Lemma init_cached lib level w e :
  level = "system" ∨ level = "session" →
  cached level "bus" w = Some e →
  __init__ lib level w = (Ok (Instance level), w).
Proof.
  intros Hlevel Hbus. unfold __init__. rewrite bool_decide_eq_true_2.
  2:{ rewrite !elem_of_cons. tauto. }
  cbv zeta. simpl. unfold cached in Hbus.
  destruct (dbus_objects w !! level) as [objects|] eqn:Hobjects; [|done].
  simpl in Hbus. rewrite (bind_Ok _ _ _ _ _ (contains_run _ _ _ _ Hobjects)).
  rewrite Hbus. rewrite bool_decide_eq_true_2 by eauto. done.
Qed.

Lemma init_fresh lib level w objects :
  level = "system" ∨ level = "session" →
  dbus_objects w !! level = Some objects →
  objects !! "bus" = None →
  fault_of lib (trace w) (connect level) = None →
  __init__ lib level w =
    (Ok (Instance level),
     World (<[level := <["bus" := Handle (next_handle w)]> objects]> (dbus_objects w))
       (trace w ++ [connect level]) (S (next_handle w))).
Proof.
  intros Hlevel Hobjects Hbus Hfault. unfold __init__. rewrite bool_decide_eq_true_2.
  2:{ rewrite !elem_of_cons. tauto. }
  cbv zeta. simpl. rewrite (bind_Ok _ _ _ _ _ (contains_run _ _ _ _ Hobjects)).
  rewrite Hbus. rewrite bool_decide_eq_false_2 by (by intros [??]). simpl.
  unfold connect in *.
  destruct (String.eqb level "system");
    (erewrite bind_Ok; [done|]);
    (erewrite bind_Ok; [|by apply create_run]);
    by rewrite (setitem_run _ _ _ _ objects).
Qed.

(** ** The cache stays sound and only grows *)

Lemma cached_lookup level key w objects :
  dbus_objects w !! level = Some objects → cached level key w = objects !! key.
Proof. intros H. unfold cached. by rewrite H. Qed.

Lemma grows_refl w : grows w w.
Proof.
  split; [done|]. intros level key [h|m] H; [done|]. by exists m.
Qed.

Lemma grows_trans w1 w2 w3 : grows w1 w2 → grows w2 w3 → grows w1 w3.
Proof.
  intros [Hn1 H1] [Hn2 H2]. split; [lia|].
  intros level key [h|m] H.
  - apply (H2 level key (Handle h)), (H1 level key (Handle h)), H.
  - destruct (H1 level key (Units m) H) as (m' & H' & Hm).
    destruct (H2 level key (Units m') H') as (m'' & H'' & Hm').
    exists m''. split; [done|]. by transitivity m'.
Qed.

(** A call into the library changes neither soundness nor the cache. *)
Lemma cache_ok_call w t n :
  cache_ok w → (next_handle w ≤ n)%nat → cache_ok (World (dbus_objects w) t n).
Proof.
  intros Hok Hn level objects Hl. destruct (Hok level objects Hl) as [Hd Hu].
  split; [done|]. intros m Hm. destruct (Hu m Hm) as [Hlt Hinj].
  split; [|done]. intros u h Hh. specialize (Hlt u h Hh). simpl. lia.
Qed.

Lemma grows_call w t n :
  (next_handle w ≤ n)%nat → grows w (World (dbus_objects w) t n).
Proof.
  intros Hn. split; [done|]. intros level key [h|m] H; [done|]. by exists m.
Qed.

(** Storing a dictionary that extends the one of the level. *)
Lemma cache_ok_store w level objects' :
  cache_ok w →
  deps_closed objects' →
  (∀ m, objects' !! "unit_properties" = Some (Units m) → units_ok (next_handle w) m) →
  cache_ok (World (<[level := objects']> (dbus_objects w)) (trace w) (next_handle w)).
Proof.
  intros Hok Hd Hu level' objects Hl. simpl in *.
  destruct (decide (level = level')) as [<-|Hne].
  - rewrite lookup_insert_eq in Hl. by injection Hl as <-.
  - rewrite lookup_insert_ne in Hl by done. by apply (Hok level').
Qed.

Lemma grows_store w level objects objects' :
  dbus_objects w !! level = Some objects →
  (∀ key e, objects !! key = Some e →
     match e with
     | Handle h => objects' !! key = Some (Handle h)
     | Units m => ∃ m', objects' !! key = Some (Units m') ∧ m ⊆ m'
     end) →
  grows w (World (<[level := objects']> (dbus_objects w)) (trace w) (next_handle w)).
Proof.
  intros Hl Hext. split; [done|]. intros level' key e. unfold cached. simpl.
  destruct (decide (level = level')) as [<-|Hne].
  - rewrite Hl, lookup_insert_eq. simpl. apply Hext.
  - rewrite lookup_insert_ne by done. destruct e as [h|m]; [done|]. by exists m.
Qed.

Lemma insert_new_extends (objects : gmap string entry) key e' :
  objects !! key = None →
  ∀ k e, objects !! k = Some e →
    match e with
    | Handle h => <[key := e']> objects !! k = Some (Handle h)
    | Units m => ∃ m', <[key := e']> objects !! k = Some (Units m') ∧ m ⊆ m'
    end.
Proof.
  intros Hnew k e Hk. assert (key ≠ k) by congruence.
  rewrite lookup_insert_ne by done. destruct e as [h|m]; [done|]. by exists m.
Qed.

Lemma deps_closed_insert (objects : gmap string entry) key h :
  deps_closed objects →
  key ≠ "unit_properties" →
  (∀ pre, prerequisite key = Some pre → is_Some (objects !! pre)) →
  deps_closed (<[key := Handle h]> objects).
Proof.
  intros [Hd Hu] Hkey Hpre. split.
  - intros k pre Hk. rewrite !lookup_insert_is_Some.
    intros [<-|[_ Hin]].
    + specialize (Hpre pre Hk). destruct (decide (key = pre)); auto.
    + specialize (Hd k pre Hk Hin). destruct (decide (key = pre)); auto.
  - intros m u. rewrite lookup_insert_ne by done. intros Hm Hin.
    rewrite lookup_insert_is_Some. specialize (Hu m u Hm Hin).
    destruct (decide (key = "systemd_manager")); auto.
Qed.

Lemma deps_closed_insert_units (objects : gmap string entry) m :
  deps_closed objects →
  (∀ unit_id, is_Some (m !! unit_id) → is_Some (objects !! "systemd_manager")) →
  deps_closed (<["unit_properties" := Units m]> objects).
Proof.
  intros [Hd Hu] Hm. split.
  - intros k pre Hk. rewrite !lookup_insert_is_Some.
    intros [<-|[_ Hin]]; [done|].
    specialize (Hd k pre Hk Hin). destruct (decide ("unit_properties" = pre)); auto.
  - intros m' u. rewrite lookup_insert_eq. intros [= <-] Hin.
    rewrite lookup_insert_ne by done. by eapply Hm.
Qed.

Lemma units_ok_insert n m unit_id h :
  units_ok n m → (∀ u h', m !! u = Some h' → (h' < h)%nat) → (h < n)%nat →
  units_ok n (<[unit_id := h]> m).
Proof.
  intros [Hlt Hinj] Hold Hh. split.
  - intros u h'. rewrite lookup_insert. case_decide.
    + by intros [= <-].
    + apply Hlt.
  - intros u1 u2 h'. rewrite !lookup_insert. repeat case_decide; subst.
    + done.
    + intros [= <-] Hu. specialize (Hold u2 h Hu). lia.
    + intros Hu [= <-]. specialize (Hold u1 h Hu). lia.
    + apply Hinj.
Qed.

(** *** Rules for [keeps] *)

Section Keeps.

Variable lib : library.
Variable w0 : world.

Lemma post_Raise {A} (P : A → world → Prop) e w :
  cache_ok w → grows w0 w → post w0 P (Raise e) w.
Proof. intros Hok Hg. split; [done|]. split; [done|]. by intros a [=]. Qed.

Lemma keeps_bind {A B} (m : M A) (k : A → M B) P w :
  keeps w0 m (λ a w', keeps w0 (k a) P w') w → keeps w0 (bind m k) P w.
Proof.
  intros Hm Hok Hg. specialize (Hm Hok Hg). unfold wp, bind in *.
  destruct (m w) as [[a|e] w']; simpl in *; destruct Hm as (Hok' & Hg' & HP).
  - by apply (HP a).
  - by apply post_Raise.
Qed.

Lemma keeps_conseq {A} (m : M A) (P P' : A → world → Prop) w :
  keeps w0 m P w →
  (∀ a w', cache_ok w' → grows w0 w' → P a w' → P' a w') →
  keeps w0 m P' w.
Proof.
  intros Hm HP Hok Hg. destruct (Hm Hok Hg) as (Hok' & Hg' & HP').
  split; [done|]. split; [done|]. intros a Ha. apply HP; auto.
Qed.

Lemma keeps_ret {A} (a : A) (P : A → world → Prop) w :
  P a w → keeps w0 (ret a) P w.
Proof. intros HP Hok Hg. split; [done|]. split; [done|]. by intros ? [= <-]. Qed.

Lemma keeps_raise {A} e (P : A → world → Prop) w : keeps w0 (raise e) P w.
Proof. intros Hok Hg. by apply post_Raise. Qed.

Lemma keeps_lift {A} (r : result A) (P : A → world → Prop) w :
  (∀ a, r = Ok a → P a w) → keeps w0 (lift r) P w.
Proof. intros HP Hok Hg. split; [done|]. split; [done|]. exact HP. Qed.

Lemma keeps_contains level key (P : bool → world → Prop) w :
  (∀ objects, dbus_objects w !! level = Some objects →
     P (bool_decide (is_Some (objects !! key))) w) →
  keeps w0 (contains level key) P w.
Proof.
  intros HP Hok Hg. unfold wp, contains, level_objects, bind, ret.
  destruct (dbus_objects w !! level) as [objects|] eqn:Hl; simpl.
  - split; [done|]. split; [done|]. intros ? [= <-]. by apply HP.
  - by apply post_Raise.
Qed.

Lemma keeps_getitem level key (P : entry → world → Prop) w :
  (∀ objects e, dbus_objects w !! level = Some objects → objects !! key = Some e →
     P e w) →
  keeps w0 (getitem level key) P w.
Proof.
  intros HP Hok Hg. unfold wp, getitem, level_objects, bind, ret, raise.
  destruct (dbus_objects w !! level) as [objects|] eqn:Hl; simpl;
    [|by apply post_Raise].
  destruct (objects !! key) as [e|] eqn:He; simpl; [|by apply post_Raise].
  split; [done|]. split; [done|]. intros ? [= <-]. by eapply HP.
Qed.

Lemma keeps_attribute obj name (P : handle → world → Prop) w :
  (∀ h, obj = Handle h → P h w) → keeps w0 (attribute obj name) P w.
Proof.
  intros HP Hok Hg. destruct obj as [h|m]; simpl; [|by apply post_Raise].
  split; [done|]. split; [done|]. intros ? [= <-]. by apply HP.
Qed.

Lemma keeps_create c (P : handle → world → Prop) w :
  (cache_ok w →
   ∀ w', w' = World (dbus_objects w) (trace w ++ [c]) (S (next_handle w)) →
     P (next_handle w) w') →
  keeps w0 (create lib c) P w.
Proof.
  intros HP Hok Hg. unfold wp, create.
  destruct (fault_of lib (trace w) c); simpl.
  - apply post_Raise; [by apply cache_ok_call|].
    eapply grows_trans; [done|]. by apply grows_call.
  - split; [apply cache_ok_call; [done|lia]|].
    split; [eapply grows_trans; [done|]; apply grows_call; lia|].
    intros ? [= <-]. by apply HP.
Qed.

Lemma keeps_invoke obj name args (P : value → world → Prop) w :
  (∀ v h, obj = Handle h → P v (called (Method h name args) w)) →
  keeps w0 (invoke lib obj name args) P w.
Proof.
  intros HP Hok Hg. destruct obj as [h|m]; [|by apply post_Raise].
  unfold wp. rewrite invoke_run. simpl.
  assert (cache_ok (called (Method h name args) w)) by by apply cache_ok_call.
  assert (grows w0 (called (Method h name args) w)).
  { eapply grows_trans; [done|]. by apply grows_call. }
  destruct (fault_of lib (trace w) (Method h name args)).
  - by apply post_Raise.
  - split; [done|]. split; [done|]. intros ? [= <-]. by eapply HP.
Qed.

Lemma keeps_setitem level key e (P : unit → world → Prop) w :
  (∀ objects w',
     dbus_objects w !! level = Some objects →
     w' = World (<[level := <[key := e]> objects]> (dbus_objects w))
            (trace w) (next_handle w) →
     cache_ok w → cache_ok w' ∧ grows w w' ∧ P tt w') →
  keeps w0 (setitem level key e) P w.
Proof.
  intros HP Hok Hg. unfold wp, setitem, store, level_objects, bind.
  destruct (dbus_objects w !! level) as [objects|] eqn:Hl; simpl;
    [|by apply post_Raise].
  destruct (HP objects _ eq_refl eq_refl Hok) as (Hok' & Hg' & HP').
  split; [done|]. split; [by eapply grows_trans|]. by intros [] _.
Qed.

Lemma keeps_contains_unit level unit_id (P : bool → world → Prop) w :
  (∀ objects m, dbus_objects w !! level = Some objects →
     objects !! "unit_properties" = Some (Units m) →
     P (bool_decide (is_Some (m !! unit_id))) w) →
  keeps w0 (contains_unit level unit_id) P w.
Proof.
  intros HP. unfold contains_unit. apply keeps_bind, keeps_getitem.
  intros objects [h|m] Hl He; [apply keeps_raise|]. apply keeps_ret. by eapply HP.
Qed.

Lemma keeps_getitem_unit level unit_id (P : entry → world → Prop) w :
  (∀ h, wrapper level unit_id w = Some h → P (Handle h) w) →
  keeps w0 (getitem_unit level unit_id) P w.
Proof.
  intros HP. unfold getitem_unit. apply keeps_bind, keeps_getitem.
  intros objects [h|m] Hl He; [apply keeps_raise|].
  destruct (m !! unit_id) as [h|] eqn:Hu; [|apply keeps_raise].
  apply keeps_ret, HP. unfold wrapper. by rewrite (cached_lookup _ _ _ _ Hl), He.
Qed.

Lemma keeps_setitem_unit level unit_id h (P : unit → world → Prop) w :
  (∀ objects m w',
     dbus_objects w !! level = Some objects →
     objects !! "unit_properties" = Some (Units m) →
     w' = World (<[level := <["unit_properties" := Units (<[unit_id := h]> m)]> objects]>
                   (dbus_objects w)) (trace w) (next_handle w) →
     cache_ok w → cache_ok w' ∧ grows w w' ∧ P tt w') →
  keeps w0 (setitem_unit level unit_id h) P w.
Proof.
  intros HP. unfold setitem_unit. apply keeps_bind, keeps_getitem.
  intros objects [h'|m] Hl He; [apply keeps_raise|].
  apply keeps_setitem. intros objects' w' Hl' -> Hok.
  assert (objects' = objects) as -> by congruence. by eapply HP.
Qed.

End Keeps.

(** *** The accessors *)

Lemma store_new_handle w level objects key h w' :
  cache_ok w →
  dbus_objects w !! level = Some objects →
  objects !! key = None →
  key ≠ "unit_properties" →
  (∀ pre, prerequisite key = Some pre → is_Some (objects !! pre)) →
  w' = World (<[level := <[key := Handle h]> objects]> (dbus_objects w))
         (trace w) (next_handle w) →
  cache_ok w' ∧ grows w w' ∧ is_Some (cached level key w').
Proof.
  intros Hok Hl Hnew Hkey Hpre ->. destruct (Hok level objects Hl) as [Hd Hu].
  split; [|split].
  - apply cache_ok_store; [done|by apply deps_closed_insert|].
    intros m. rewrite lookup_insert_ne by done. apply Hu.
  - eapply grows_store; [done|]. by apply insert_new_extends.
  - unfold cached. simpl. rewrite lookup_insert_eq. simpl.
    rewrite lookup_insert_eq. eauto.
Qed.

Ltac keep_step :=
  cbv beta zeta;
  lazymatch goal with
  | |- keeps _ (bind (contains_unit _ _) _) _ _ => fail
  | _ => idtac
  end;
  first
    [ simple apply keeps_bind
    | simple apply keeps_ret
    | simple apply keeps_raise
    | simple apply keeps_contains; intros ? ?
    | simple apply keeps_getitem; intros ? ? ? ?
    | simple apply keeps_attribute; intros ? ?
    | simple apply keeps_create; intros ? ? ->
    | simple apply keeps_invoke; intros ? ? ?
    | simple apply keeps_getitem_unit; intros ? ?
    | match goal with
      | |- keeps _ (if negb (bool_decide ?P) then _ else _) _ _ =>
          destruct (bool_decide_reflect P); simpl negb; cbv iota
      end ];
  simpl dbus_objects in *; simpl next_handle in *; simplify_eq.

Lemma grows_is_Some w w' level key :
  grows w w' → is_Some (cached level key w) → is_Some (cached level key w').
Proof.
  intros [_ Hg] [[h|m] He].
  - rewrite (Hg level key (Handle h) He). eauto.
  - destruct (Hg level key (Units m) He) as (m' & -> & _). eauto.
Qed.

Lemma grows_wrapper w w' level unit_id h :
  grows w w' → wrapper level unit_id w = Some h → wrapper level unit_id w' = Some h.
Proof.
  intros [_ Hg]. unfold wrapper.
  destruct (cached level "unit_properties" w) as [[h'|m]|] eqn:He; try done.
  destruct (Hg level "unit_properties" (Units m) He) as (m' & -> & Hm).
  intros Hu. by eapply lookup_weaken.
Qed.

Lemma store_new_units w level objects w' :
  cache_ok w →
  dbus_objects w !! level = Some objects →
  objects !! "unit_properties" = None →
  w' = World (<[level := <["unit_properties" := Units ∅]> objects]> (dbus_objects w))
         (trace w) (next_handle w) →
  cache_ok w' ∧ grows w w'.
Proof.
  intros Hok Hl Hnew ->. destruct (Hok level objects Hl) as [Hd Hu]. split.
  - apply cache_ok_store; [done| |].
    + apply deps_closed_insert_units; [done|]. intros u. rewrite lookup_empty.
      by intros [??].
    + intros m. rewrite lookup_insert_eq. intros [= <-]. split; intros *.
      * by rewrite lookup_empty.
      * by rewrite lookup_empty.
  - eapply grows_store; [done|]. by apply insert_new_extends.
Qed.

Lemma store_unit w level objects m unit_id h w' :
  cache_ok w →
  dbus_objects w !! level = Some objects →
  objects !! "unit_properties" = Some (Units m) →
  m !! unit_id = None →
  is_Some (objects !! "systemd_manager") →
  (∀ u h', m !! u = Some h' → (h' < h)%nat) →
  (h < next_handle w)%nat →
  w' = World (<[level := <["unit_properties" := Units (<[unit_id := h]> m)]> objects]>
                (dbus_objects w)) (trace w) (next_handle w) →
  cache_ok w' ∧ grows w w' ∧ wrapper level unit_id w' = Some h.
Proof.
  intros Hok Hl Hunits Hnew Hmanager Hold Hh ->.
  destruct (Hok level objects Hl) as [Hd Hu]. split; [|split].
  - apply cache_ok_store; [done| |].
    + apply deps_closed_insert_units; [done|]. intros u.
      rewrite lookup_insert_is_Some. intros [_|[_ Hin]]; [done|].
      by eapply (proj2 Hd m u).
    + intros m'. rewrite lookup_insert_eq. intros [= <-].
      apply units_ok_insert; auto.
  - eapply grows_store; [done|]. intros k e Hk.
    destruct (decide ("unit_properties" = k)) as [<-|Hne].
    + rewrite lookup_insert_eq. rewrite Hunits in Hk. injection Hk as <-.
      eexists. split; [done|]. by apply insert_subseteq.
    + rewrite lookup_insert_ne by done. destruct e as [h'|m']; [done|]. by exists m'.
  - unfold wrapper, cached. simpl. rewrite lookup_insert_eq. simpl.
    by rewrite !lookup_insert_eq.
Qed.

Ltac keep_store :=
  apply keeps_setitem; intros ? ? ? -> ?; simpl dbus_objects in *; simplify_eq;
  eapply store_new_handle;
  [ done | done | by apply eq_None_not_Some | done | intros ? [= <-]; eauto | done ].

Ltac keep_present :=
  match goal with
  | H : dbus_objects ?w !! ?level = Some _ |- is_Some (cached ?level _ ?w) =>
      by rewrite (cached_lookup _ _ _ _ H)
  end.

Section Accessors.

Variable lib : library.
Variable self : instance.
Variable w0 : world.

Lemma init_keeps level w : keeps w0 (__init__ lib level) (λ _ _, True) w.
Proof.
  unfold __init__. case_bool_decide; [|apply keeps_raise]. cbv zeta. simpl dbus_level.
  repeat keep_step; try done.
  destruct (String.eqb level "system"); repeat keep_step;
    (eapply (keeps_conseq _ _ (λ _ w', is_Some (cached level "bus" w')));
       [keep_store|done]).
Qed.

Lemma add_systemd_keeps w :
  keeps w0 (add_systemd lib self)
    (λ _ w', is_Some (cached (dbus_level self) "systemd" w')) w.
Proof. unfold add_systemd. repeat keep_step; [keep_present|keep_store]. Qed.

Lemma add_systemd_manager_keeps w :
  keeps w0 (add_systemd_manager lib self)
    (λ _ w', is_Some (cached (dbus_level self) "systemd_manager" w')) w.
Proof.
  unfold add_systemd_manager. keep_step.
  eapply keeps_conseq; [apply add_systemd_keeps|]. intros _ w1 _ _ _.
  repeat keep_step; [keep_present|keep_store].
Qed.

Lemma add_systemd_properties_keeps w :
  keeps w0 (add_systemd_properties lib self)
    (λ _ w', is_Some (cached (dbus_level self) "systemd_properties" w')) w.
Proof.
  unfold add_systemd_properties. keep_step.
  eapply keeps_conseq; [apply add_systemd_keeps|]. intros _ w1 _ _ _.
  repeat keep_step; [keep_present|keep_store].
Qed.

Lemma add_dbus_keeps w :
  keeps w0 (add_dbus lib self)
    (λ _ w', is_Some (cached (dbus_level self) "dbus" w')) w.
Proof. unfold add_dbus. repeat keep_step; [keep_present|keep_store]. Qed.

Lemma add_dbus_interface_keeps w :
  keeps w0 (add_dbus_interface lib self)
    (λ _ w', is_Some (cached (dbus_level self) "dbus_interface" w')) w.
Proof.
  unfold add_dbus_interface. keep_step.
  eapply keeps_conseq; [apply add_dbus_keeps|]. intros _ w1 _ _ _.
  repeat keep_step; [keep_present|keep_store].
Qed.

(** The end of [add_systemd_unit_properties]: the wrapper of the unit is
    created unless the nested dictionary has one. *)
Lemma unit_wrapper_keeps w unit_id unit_path :
  is_Some (cached (dbus_level self) "systemd_manager" w) →
  keeps w0
    (known <- contains_unit (dbus_level self) unit_id ;;
     if negb known then
       iface <- create lib (Interface (Handle unit_path) "org.freedesktop.DBus.Properties") ;;
       setitem_unit (dbus_level self) unit_id iface
     else ret tt)
    (λ _ w', is_Some (wrapper (dbus_level self) unit_id w')) w.
Proof.
  intros Hmanager. simple apply keeps_bind.
  simple apply keeps_contains_unit. intros objects m H H0. repeat keep_step.
  - unfold wrapper. by rewrite (cached_lookup _ _ _ _ H), H0.
  - apply keeps_setitem_unit. intros objects' m' w' Hl Hm -> Hok.
    simpl dbus_objects in *. simplify_eq.
    rewrite (cached_lookup _ _ _ _ H) in Hmanager.
    destruct (H1 _ _ H) as [_ Hu]. destruct (Hu _ H0) as [Hlt _].
    edestruct store_unit as (Hok' & Hg' & Hw); [exact Hok|done|done| |done| | |done|].
    + by apply eq_None_not_Some.
    + exact Hlt.
    + simpl. lia.
    + split; [exact Hok'|]. split; [exact Hg'|]. eexists. exact Hw.
Qed.

Lemma add_systemd_unit_properties_keeps w unit_id :
  keeps w0 (add_systemd_unit_properties lib self unit_id)
    (λ _ w', is_Some (wrapper (dbus_level self) unit_id w')) w.
Proof.
  unfold add_systemd_unit_properties. keep_step.
  eapply keeps_conseq; [apply add_systemd_manager_keeps|]. intros [] w1 _ _ Hmanager.
  cbv beta in Hmanager.
  repeat keep_step.
  - apply unit_wrapper_keeps. exact Hmanager.
  - apply keeps_setitem. intros objects' w' Hl -> Hok.
    simpl dbus_objects in *. simplify_eq.
    edestruct store_new_units as [Hok' Hg']; [exact Hok|done| |done|].
    { by apply eq_None_not_Some. }
    split; [done|]. split; [done|]. apply unit_wrapper_keeps.
    eapply grows_is_Some; [done|]. exact Hmanager.
Qed.

Lemma perform_keeps m w : keeps w0 (perform lib self m) (λ _ _, True) w.
Proof.
  destruct m; unfold perform, get_unit_property, reload_systemd, list_systemd_jobs,
    set_dbus_vars, set_systemd_vars, unset_systemd_vars, get_systemd_vars,
    list_units_by_patterns, stop_unit; cbv zeta;
    repeat (simple apply keeps_bind);
    (eapply keeps_conseq;
       [first [ apply add_systemd_keeps | apply add_systemd_manager_keeps
              | apply add_systemd_properties_keeps | apply add_dbus_keeps
              | apply add_dbus_interface_keeps
              | apply add_systemd_unit_properties_keeps ]|]);
    intros _ w1 _ _ _; repeat keep_step; try done.
  - apply keeps_lift. intros items _. keep_step. apply keeps_lift. intros env _.
    by repeat keep_step.
Qed.

End Accessors.

(** Whatever is constructed and called, the cache stays sound and keeps
    what it has. *)
Lemma reaches_keeps lib w w' :
  cache_ok w → reaches lib w w' → cache_ok w' ∧ grows w w'.
Proof.
  intros Hok. induction 1 as [|level w' _ [Hok' Hg]|self m w' _ [Hok' Hg]].
  - split; [done|apply grows_refl].
  - destruct (init_keeps lib w level w' Hok' Hg) as (? & ? & _). done.
  - destruct (perform_keeps lib self w m w' Hok' Hg) as (? & ? & _). done.
Qed.

Lemma cache_ok_initial : cache_ok initial_world.
Proof.
  intros level objects. unfold initial_world. simpl.
  assert (Hempty : deps_closed ∅ ∧
            ∀ m : gmap string handle,
              (∅ : gmap string entry) !! "unit_properties" = Some (Units m) →
              units_ok 0 m).
  { split; [split|]; intros *; by rewrite lookup_empty. }
  rewrite !lookup_insert. repeat case_decide; try done; by intros [= <-].
Qed.

(** ** Dependency order *)

Lemma reachable_cache_ok lib w : reaches lib initial_world w → cache_ok w.
Proof. intros H. by destruct (reaches_keeps lib _ _ cache_ok_initial H). Qed.

(** C3: construction raises [ValueError] for every level other than
    ["system"] and ["session"], and changes nothing then.  For these two it
    succeeds once the bus of the level can be opened, and however often an
    instance of the level is constructed on the shared cache, the bus is
    opened by the first construction alone: its handle is cached under
    ["bus"] and every later construction finds it there and leaves the
    world as it is.  No construction and no method call replaces or removes
    a cached bus. *)
Theorem construction lib :
  (∀ level w, level ≠ "system" → level ≠ "session" →
     __init__ lib level w =
       (Raise (ValueError ("dbus_level can be 'system' or 'session', got '"
                           +:+ level +:+ "'")), w))
  ∧ (∀ level w objects n,
       level = "system" ∨ level = "session" →
       dbus_objects w !! level = Some objects →
       objects !! "bus" = None →
       fault_of lib (trace w) (connect level) = None →
       ∃ w1,
         __init__ lib level w = (Ok (Instance level), w1)
         ∧ times (S n) (__init__ lib level) w = (Ok tt, w1)
         ∧ List.filter is_connect (calls_since w w1) = [connect level]
         ∧ cached level "bus" w1 = Some (Handle (next_handle w))
         ∧ __init__ lib level w1 = (Ok (Instance level), w1))
  ∧ (∀ level w e n,
       level = "system" ∨ level = "session" →
       cached level "bus" w = Some e →
       __init__ lib level w = (Ok (Instance level), w)
       ∧ times n (__init__ lib level) w = (Ok tt, w))
  ∧ (∀ level w w' bus,
       reaches lib initial_world w → reaches lib w w' →
       cached level "bus" w = Some (Handle bus) →
       cached level "bus" w' = Some (Handle bus)).
Proof.
  assert (Hagain : ∀ level w e n,
    level = "system" ∨ level = "session" → cached level "bus" w = Some e →
    times n (__init__ lib level) w = (Ok tt, w)).
  { intros level w e n Hlevel Hbus. induction n as [|n IH]; simpl; [done|].
    by rewrite (bind_Ok _ _ _ _ _ (init_cached lib level w e Hlevel Hbus)). }
  split; [|split; [|split]].
  - apply init_invalid.
  - intros level w objects n Hlevel Hobjects Hbus Hfault.
    pose proof (init_fresh lib level w objects Hlevel Hobjects Hbus Hfault) as Hfirst.
    eexists. split; [exact Hfirst|].
    assert (Hcached : cached level "bus"
              (World (<[level := <["bus" := Handle (next_handle w)]> objects]>
                        (dbus_objects w))
                 (trace w ++ [connect level]) (S (next_handle w)))
            = Some (Handle (next_handle w))).
    { unfold cached. simpl. rewrite lookup_insert_eq. simpl.
      by rewrite lookup_insert_eq. }
    split; [|split; [|split]].
    + simpl. rewrite (bind_Ok _ _ _ _ _ Hfirst). by eapply Hagain.
    + unfold calls_since. simpl. rewrite drop_app_length. simpl.
      unfold connect. by destruct (String.eqb level "system").
    + done.
    + by eapply init_cached.
  - intros level w e n Hlevel Hbus. split; [by eapply init_cached|by eapply Hagain].
  - intros level w w' bus Hw Hw' Hbus.
    destruct (reaches_keeps lib w w' (reachable_cache_ok lib w Hw) Hw') as [_ [_ Hg]].
    apply (Hg level "bus" (Handle bus) Hbus).
Qed.

Lemma construction_witness :
  times 3 (__init__ (stub [] None) "session") initial_world
  = (Ok tt, session_world (stub [] None))
  ∧ cached "session" "bus" (session_world (stub [] None)) = Some (Handle 0).
Proof.
  destruct (proj1 (proj2 (construction (stub [] None)))
              "session" initial_world ∅ 2 (or_intror eq_refl) eq_refl eq_refl eq_refl)
    as (w1 & Hfirst & Htimes & _ & Hbus & _).
  unfold session_world. rewrite Hfirst. simpl. by split.
Defined.

(** On a level that has its bus and none of the manager objects,
    [add_systemd_unit_properties] makes five calls, in the order of the
    dependencies. *)
Lemma add_systemd_unit_properties_fresh lib self unit_id w objects bus :
  (∀ history c, fault_of lib history c = None) →
  dbus_objects w !! dbus_level self = Some objects →
  objects !! "bus" = Some (Handle bus) →
  objects !! "systemd" = None →
  objects !! "systemd_manager" = None →
  objects !! "unit_properties" = None →
  let n := next_handle w in
  let get_systemd :=
    GetObject bus "org.freedesktop.systemd1" (VStr "/org/freedesktop/systemd1") in
  let wrap_manager := Interface (Handle n) "org.freedesktop.systemd1.Manager" in
  let get_unit := Method (S n) "GetUnit" [VStr unit_id] in
  let path := reply_of lib (trace w ++ [get_systemd; wrap_manager]) get_unit in
  let w' := snd (add_systemd_unit_properties lib self unit_id w) in
  fst (add_systemd_unit_properties lib self unit_id w) = Ok tt
  ∧ calls_since w w' =
      [get_systemd; wrap_manager; get_unit;
       GetObject bus "org.freedesktop.systemd1" path;
       Interface (Handle (S (S n))) "org.freedesktop.DBus.Properties"]
  ∧ cached (dbus_level self) "systemd" w' = Some (Handle n)
  ∧ cached (dbus_level self) "systemd_manager" w' = Some (Handle (S n))
  ∧ wrapper (dbus_level self) unit_id w' = Some (S (S (S n))).
Proof.
  intros Hfault Hl Hbus Hsystemd Hmanager Hunits. cbv zeta.
  unfold calls_since, wrapper, cached.
  destruct (add_systemd_unit_properties lib self unit_id w) as [r w'] eqn:Hrun.
  revert Hrun.
  unfold add_systemd_unit_properties, add_systemd_manager, add_systemd,
    contains_unit, setitem_unit, contains, getitem, setitem, store, level_objects,
    create, invoke, attribute, remote, bind, ret, raise.
  repeat (rewrite ?Hfault, ?Hl, ?lookup_insert_eq, ?lookup_empty; simpl;
          rewrite ?(lookup_insert_ne (M:=gmap string)) by done;
          rewrite ?Hbus, ?Hsystemd, ?Hmanager, ?Hunits; simpl).
  intros [= <- <-]. simpl.
  repeat (rewrite ?lookup_insert_eq; simpl;
          rewrite ?(lookup_insert_ne (M:=gmap string)) by done).
  rewrite <-!app_assoc, drop_app_length. done.
Qed.

(** C4: on a cache without the manager objects,
    [add_systemd_unit_properties] first creates the manager object, then
    the manager interface, and only then looks the unit up and wraps it.
    In every world that constructions and method calls lead to, an entry of
    the cache has the entry it depends on: the objects have the bus, the
    interfaces their object, the wrapper of a unit the manager interface. *)
Theorem dependency_order lib :
  (∀ self unit_id w objects bus,
     (∀ history c, fault_of lib history c = None) →
     dbus_objects w !! dbus_level self = Some objects →
     objects !! "bus" = Some (Handle bus) →
     objects !! "systemd" = None →
     objects !! "systemd_manager" = None →
     objects !! "unit_properties" = None →
     let n := next_handle w in
     let get_systemd :=
       GetObject bus "org.freedesktop.systemd1" (VStr "/org/freedesktop/systemd1") in
     let wrap_manager := Interface (Handle n) "org.freedesktop.systemd1.Manager" in
     let get_unit := Method (S n) "GetUnit" [VStr unit_id] in
     let path := reply_of lib (trace w ++ [get_systemd; wrap_manager]) get_unit in
     let w' := snd (add_systemd_unit_properties lib self unit_id w) in
     fst (add_systemd_unit_properties lib self unit_id w) = Ok tt
     ∧ calls_since w w' =
         [get_systemd; wrap_manager; get_unit;
          GetObject bus "org.freedesktop.systemd1" path;
          Interface (Handle (S (S n))) "org.freedesktop.DBus.Properties"]
     ∧ cached (dbus_level self) "systemd" w' = Some (Handle n)
     ∧ cached (dbus_level self) "systemd_manager" w' = Some (Handle (S n))
     ∧ wrapper (dbus_level self) unit_id w' = Some (S (S (S n))))
  ∧ (∀ w level objects,
       reaches lib initial_world w →
       dbus_objects w !! level = Some objects →
       deps_closed objects).
Proof.
  split.
  - apply add_systemd_unit_properties_fresh.
  - intros w level objects Hw Hl.
    by destruct (reachable_cache_ok lib w Hw level objects Hl).
Qed.

Lemma dependency_order_witness :
  calls_since (session_world (stub [] None))
    (snd (add_systemd_unit_properties (stub [] None) session "foo.service"
            (session_world (stub [] None))))
  = [GetObject 0 "org.freedesktop.systemd1" (VStr "/org/freedesktop/systemd1");
     Interface (Handle 1) "org.freedesktop.systemd1.Manager";
     Method 2 "GetUnit" [VStr "foo.service"];
     GetObject 0 "org.freedesktop.systemd1"
       (VStr "/org/freedesktop/systemd1/unit/foo.service");
     Interface (Handle 3) "org.freedesktop.DBus.Properties"].
Proof.
  refine (proj1 (proj2 (proj1 (dependency_order (stub [] None))
    session "foo.service" (session_world (stub [] None))
    (<["bus" := Handle 0]> ∅) 0 _ _ _ _ _ _))); reflexivity.
Defined.

(** ** One wrapper for one unit *)

Lemma getitem_unit_run level unit_id w h :
  wrapper level unit_id w = Some h →
  getitem_unit level unit_id w = (Ok (Handle h), w).
Proof.
  unfold wrapper. destruct (cached level "unit_properties" w) as [[h'|m]|] eqn:He;
    try done.
  intros Hu. unfold getitem_unit. rewrite (bind_Ok _ _ _ _ _ (getitem_cached _ _ _ _ He)).
  by rewrite Hu.
Qed.

(** C6: once [add_systemd_unit_properties] has returned for a unit, every
    later access to the wrapper of that unit, whatever was constructed or
    called in between, gives the same object; and the wrappers cached for
    two different units are two different objects under two keys of the
    nested dictionary. *)
Theorem unit_wrappers lib w :
  reaches lib initial_world w →
  (∀ self unit_id w1,
     add_systemd_unit_properties lib self unit_id w = (Ok tt, w1) →
     ∃ h,
       wrapper (dbus_level self) unit_id w1 = Some h ∧
       ∀ w2, reaches lib w1 w2 →
         wrapper (dbus_level self) unit_id w2 = Some h ∧
         getitem_unit (dbus_level self) unit_id w2 = (Ok (Handle h), w2) ∧
         ∀ w3, add_systemd_unit_properties lib self unit_id w2 = (Ok tt, w3) →
           wrapper (dbus_level self) unit_id w3 = Some h)
  ∧ (∀ level u1 u2 h1 h2,
       u1 ≠ u2 →
       wrapper level u1 w = Some h1 → wrapper level u2 w = Some h2 →
       h1 ≠ h2).
Proof.
  intros Hw. pose proof (reachable_cache_ok lib w Hw) as Hok. split.
  - intros self unit_id w1 Hrun.
    destruct (add_systemd_unit_properties_keeps lib self w w unit_id Hok (grows_refl w))
      as (Hok1 & Hg1 & Hpost).
    rewrite Hrun in Hok1, Hg1, Hpost. simpl in *.
    destruct (Hpost tt eq_refl) as [h Hh]. exists h. split; [done|].
    intros w2 Hw2. destruct (reaches_keeps lib w1 w2 Hok1 Hw2) as [Hok2 Hg2].
    pose proof (grows_wrapper _ _ _ _ _ Hg2 Hh) as Hh2.
    split; [done|]. split; [by apply getitem_unit_run|].
    intros w3 Hagain.
    destruct (add_systemd_unit_properties_keeps lib self w2 w2 unit_id Hok2
                (grows_refl w2)) as (_ & Hg3 & _).
    rewrite Hagain in Hg3. by eapply grows_wrapper.
  - intros level u1 u2 h1 h2 Hne. unfold wrapper, cached.
    destruct (dbus_objects w !! level) as [objects|] eqn:Hl; [|done]. simpl.
    destruct (objects !! "unit_properties") as [[h|m]|] eqn:Hm; try done.
    destruct (Hok level objects Hl) as [_ Hu]. destruct (Hu m Hm) as [_ Hinj].
    intros H1 H2 <-. by apply Hne, (Hinj u1 u2 h1).
Qed.

Lemma unit_wrappers_witness :
  let lib := stub [] None in
  let w1 := snd (add_systemd_unit_properties lib session "a.service" (session_world lib)) in
  let w2 := snd (perform lib session (Get_unit_property "b.service" "Id") w1) in
  (∃ h, wrapper "session" "a.service" w1 = Some h ∧
        wrapper "session" "a.service" w2 = Some h)
  ∧ wrapper "session" "a.service" w2 = Some 4
  ∧ wrapper "session" "b.service" w2 = Some 6
  ∧ 4 ≠ 6.
Proof.
  intros lib w1 w2. split; [|split; [reflexivity|split; [reflexivity|]]].
  - destruct (proj1 (unit_wrappers lib (session_world lib)
                       (reaches_init _ _ _ _ (reaches_refl _ _)))
                session "a.service" w1 eq_refl) as (h & Hh & Hlater).
    exists h. split; [exact Hh|].
    exact (proj1 (Hlater w2 (reaches_perform _ _ _ _ _ (reaches_refl _ _)))).
  - refine (proj2 (unit_wrappers lib w2
              (reaches_perform _ _ _ _ _
                 (reaches_perform _ _ session (Add_systemd_unit_properties "a.service") _
                    (reaches_init _ _ "session" _ (reaches_refl _ _)))))
              "session" "a.service" "b.service" 4 6 _ eq_refl eq_refl).
    discriminate.
Defined.

(** ** Calling an accessor again *)

Lemma contains_present level key w :
  is_Some (cached level key w) → contains level key w = (Ok true, w).
Proof.
  unfold cached. destruct (dbus_objects w !! level) as [objects|] eqn:Hl; simpl.
  - intros He. rewrite (contains_run _ _ _ _ Hl). by rewrite bool_decide_eq_true_2.
  - by intros [??].
Qed.

Lemma times_again {A} (m : M A) a w n : m w = (Ok a, w) → times n m w = (Ok tt, w).
Proof.
  intros Hm. induction n as [|n IH]; simpl; [done|]. by rewrite (bind_Ok _ _ _ _ _ Hm).
Qed.

Lemma cached_prerequisite w level key pre :
  cache_ok w → prerequisite key = Some pre →
  is_Some (cached level key w) → is_Some (cached level pre w).
Proof.
  intros Hok Hpre. unfold cached.
  destruct (dbus_objects w !! level) as [objects|] eqn:Hl; simpl; [|by intros [??]].
  destruct (Hok level objects Hl) as [[Hd _] _]. by apply Hd.
Qed.

Section Again.

Variable lib : library.
Variable self : instance.

Lemma add_systemd_present w :
  is_Some (cached (dbus_level self) "systemd" w) → add_systemd lib self w = (Ok tt, w).
Proof.
  intros H. unfold add_systemd. by rewrite (bind_Ok _ _ _ _ _ (contains_present _ _ _ H)).
Qed.

Lemma add_systemd_manager_present w :
  cache_ok w →
  is_Some (cached (dbus_level self) "systemd_manager" w) →
  add_systemd_manager lib self w = (Ok tt, w).
Proof.
  intros Hok H. unfold add_systemd_manager.
  rewrite (bind_Ok _ _ _ _ _ (add_systemd_present w
             (cached_prerequisite _ _ "systemd_manager" "systemd" Hok eq_refl H))).
  by rewrite (bind_Ok _ _ _ _ _ (contains_present _ _ _ H)).
Qed.

Lemma add_systemd_properties_present w :
  cache_ok w →
  is_Some (cached (dbus_level self) "systemd_properties" w) →
  add_systemd_properties lib self w = (Ok tt, w).
Proof.
  intros Hok H. unfold add_systemd_properties.
  rewrite (bind_Ok _ _ _ _ _ (add_systemd_present w
             (cached_prerequisite _ _ "systemd_properties" "systemd" Hok eq_refl H))).
  by rewrite (bind_Ok _ _ _ _ _ (contains_present _ _ _ H)).
Qed.

Lemma add_dbus_present w :
  is_Some (cached (dbus_level self) "dbus" w) → add_dbus lib self w = (Ok tt, w).
Proof.
  intros H. unfold add_dbus. by rewrite (bind_Ok _ _ _ _ _ (contains_present _ _ _ H)).
Qed.

Lemma add_dbus_interface_present w :
  cache_ok w →
  is_Some (cached (dbus_level self) "dbus_interface" w) →
  add_dbus_interface lib self w = (Ok tt, w).
Proof.
  intros Hok H. unfold add_dbus_interface.
  rewrite (bind_Ok _ _ _ _ _ (add_dbus_present w
             (cached_prerequisite _ _ "dbus_interface" "dbus" Hok eq_refl H))).
  by rewrite (bind_Ok _ _ _ _ _ (contains_present _ _ _ H)).
Qed.

(** What an accessor that has returned leaves behind. *)
Lemma keeps_returned {A} (m : M A) (P : A → world → Prop) w a w1 :
  (∀ w0 w, keeps w0 m P w) → cache_ok w → m w = (Ok a, w1) → cache_ok w1 ∧ P a w1.
Proof.
  intros Hm Hok Hrun. destruct (Hm w w Hok (grows_refl w)) as (Hok1 & _ & HP).
  rewrite Hrun in Hok1, HP. simpl in *. split; [done|]. by apply HP.
Qed.

(** The five accessors of the fixed entries are idempotent: after one call
    has returned, any number of further calls return at once and leave the
    world, its trace included, as it is. *)
Lemma ensure_idempotent w w1 n :
  cache_ok w →
  (add_systemd lib self w = (Ok tt, w1) →
     times n (add_systemd lib self) w1 = (Ok tt, w1))
  ∧ (add_systemd_manager lib self w = (Ok tt, w1) →
       times n (add_systemd_manager lib self) w1 = (Ok tt, w1))
  ∧ (add_systemd_properties lib self w = (Ok tt, w1) →
       times n (add_systemd_properties lib self) w1 = (Ok tt, w1))
  ∧ (add_dbus lib self w = (Ok tt, w1) →
       times n (add_dbus lib self) w1 = (Ok tt, w1))
  ∧ (add_dbus_interface lib self w = (Ok tt, w1) →
       times n (add_dbus_interface lib self) w1 = (Ok tt, w1)).
Proof.
  intros Hok. repeat split; intros Hrun; apply (times_again _ tt).
  - destruct (keeps_returned _ _ w tt w1 (add_systemd_keeps lib self) Hok Hrun).
    by apply add_systemd_present.
  - destruct (keeps_returned _ _ w tt w1 (add_systemd_manager_keeps lib self) Hok Hrun).
    by apply add_systemd_manager_present.
  - destruct (keeps_returned _ _ w tt w1 (add_systemd_properties_keeps lib self) Hok Hrun).
    by apply add_systemd_properties_present.
  - destruct (keeps_returned _ _ w tt w1 (add_dbus_keeps lib self) Hok Hrun).
    by apply add_dbus_present.
  - destruct (keeps_returned _ _ w tt w1 (add_dbus_interface_keeps lib self) Hok Hrun).
    by apply add_dbus_interface_present.
Qed.

(** [add_systemd_unit_properties] is not: with the manager interface in
    place it asks the manager for the unit before it looks into the cache,
    whether the wrapper of the unit is cached or not. *)
Lemma add_systemd_unit_properties_asks w objects bus manager :
  cache_ok w →
  dbus_objects w !! dbus_level self = Some objects →
  objects !! "bus" = Some (Handle bus) →
  objects !! "systemd_manager" = Some (Handle manager) →
  ∀ unit_id, ∃ rest,
    calls_since w (snd (add_systemd_unit_properties lib self unit_id w))
    = Method manager "GetUnit" [VStr unit_id] :: rest.
Proof.
  intros Hok Hl Hbus Hmanager unit_id.
  assert (Hready : add_systemd_manager lib self w = (Ok tt, w)).
  { apply add_systemd_manager_present; [done|].
    rewrite (cached_lookup _ _ _ _ Hl), Hmanager. eauto. }
  set (c := Method manager "GetUnit" [VStr unit_id]).
  set (k := λ path : value,
    unit_path <- create lib (GetObject bus "org.freedesktop.systemd1" path) ;;
    present <- contains (dbus_level self) "unit_properties" ;;
    (if negb present
     then setitem (dbus_level self) "unit_properties" (Units ∅) else ret tt) ;;;
    known <- contains_unit (dbus_level self) unit_id ;;
    if negb known then
      iface <- create lib (Interface (Handle unit_path) "org.freedesktop.DBus.Properties") ;;
      setitem_unit (dbus_level self) unit_id iface
    else ret tt).
  assert (Hrun : add_systemd_unit_properties lib self unit_id w
                 = bind (invoke lib (Handle manager) "GetUnit" [VStr unit_id]) k w).
  { unfold add_systemd_unit_properties. rewrite (bind_Ok _ _ _ _ _ Hready).
    rewrite (bind_Ok _ _ _ _ _ (getitem_run _ _ _ _ _ Hl Hbus)).
    erewrite bind_Ok; [|done].
    by rewrite (bind_Ok _ _ _ _ _ (getitem_run _ _ _ _ _ Hl Hmanager)). }
  rewrite Hrun. unfold bind at 1. rewrite invoke_run. fold c.
  destruct (fault_of lib (trace w) c).
  - exists []. unfold calls_since, called. simpl. by rewrite drop_app_length.
  - assert (Hk : ∀ path, built lib (dbus_level self) (λ _, True) _ (k path)).
    { intros path. unfold k.
      repeat first [ simple apply built_contains | simple apply built_setitem
                   | simple apply built_contains_unit
                   | simple apply built_setitem_unit
                   | simple apply built_create; [done]
                   | simple apply built_ret
                   | simple apply built_bind; [|intros ?]
                   | match goal with
                     | |- built _ _ _ _ (if ?b then _ else _) => destruct b
                     end ]. }
    destruct (built_emits _ _ _ _ _ (Hk (reply_of lib (trace w) c)) (called c w))
      as (rest & Ht & _).
    exists rest. unfold calls_since. rewrite Ht. unfold called. simpl.
    by rewrite <-app_assoc, drop_app_length.
Qed.

End Again.

(** C1, at [add_systemd_unit_properties("foo.service")] called twice on the
    session bus: the second call returns and leaves the cached wrapper as
    it is, but it makes the remote call [GetUnit] and the call [get_object]
    for the path of the unit a second time. *)
Theorem add_systemd_unit_properties_twice :
  let lib := stub [] None in
  let w1 := snd (add_systemd_unit_properties lib session "foo.service"
                   (session_world lib)) in
  let w2 := snd (add_systemd_unit_properties lib session "foo.service" w1) in
  fst (add_systemd_unit_properties lib session "foo.service" w1) = Ok tt
  ∧ wrapper "session" "foo.service" w1 = Some 4
  ∧ wrapper "session" "foo.service" w2 = Some 4
  ∧ calls_since w1 w2 =
      [Method 2 "GetUnit" [VStr "foo.service"];
       GetObject 0 "org.freedesktop.systemd1"
         (VStr "/org/freedesktop/systemd1/unit/foo.service")]
  ∧ length (List.filter (is_method "GetUnit") (trace w2)) = 2.
Proof. vm_compute. repeat split. Qed.

(** * Further properties of the class *)

(** ** The accessors of the fixed entries *)

Lemma perform_accessor_Ok (acc : M unit) w v w1 :
  (acc ;;; ret VNone) w = (Ok v, w1) → acc w = (Ok tt, w1) ∧ v = VNone.
Proof.
  unfold bind, ret. destruct (acc w) as [[[]|e] w'] eqn:Hacc; [|done].
  by intros [= <- <-].
Qed.

(** X1: in a world that constructions and method calls have led to, each of
    [add_systemd], [add_systemd_manager], [add_systemd_properties],
    [add_dbus] and [add_dbus_interface] is idempotent: once a call has
    returned, any number of further calls return and leave the world, the
    trace of library calls included, exactly as it is. *)
Theorem fixed_accessors_idempotent lib self m w w1 n :
  reaches lib initial_world w →
  fixed_accessor m = true →
  perform lib self m w = (Ok VNone, w1) →
  times n (perform lib self m) w1 = (Ok tt, w1).
Proof.
  intros Hw Hm Hrun. pose proof (reachable_cache_ok lib w Hw) as Hok.
  apply (times_again _ VNone).
  destruct m; try discriminate; simpl in *;
    apply perform_accessor_Ok in Hrun as [Hrun _];
    destruct (ensure_idempotent lib self w w1 1 Hok) as (H1 & H2 & H3 & H4 & H5).
  - specialize (H1 Hrun). simpl in H1. unfold bind, ret in *.
    by destruct (add_systemd lib self w1) as [[[]|?] ?]; simplify_eq.
  - specialize (H2 Hrun). simpl in H2. unfold bind, ret in *.
    by destruct (add_systemd_manager lib self w1) as [[[]|?] ?]; simplify_eq.
  - specialize (H3 Hrun). simpl in H3. unfold bind, ret in *.
    by destruct (add_systemd_properties lib self w1) as [[[]|?] ?]; simplify_eq.
  - specialize (H4 Hrun). simpl in H4. unfold bind, ret in *.
    by destruct (add_dbus lib self w1) as [[[]|?] ?]; simplify_eq.
  - specialize (H5 Hrun). simpl in H5. unfold bind, ret in *.
    by destruct (add_dbus_interface lib self w1) as [[[]|?] ?]; simplify_eq.
Qed.

Lemma fixed_accessors_idempotent_witness :
  times 3 (perform (stub [] None) session Add_dbus_interface)
    (snd (perform (stub [] None) session Add_dbus_interface (session_world (stub [] None))))
  = (Ok tt,
     snd (perform (stub [] None) session Add_dbus_interface (session_world (stub [] None)))).
Proof.
  refine (fixed_accessors_idempotent (stub [] None) session Add_dbus_interface
            (session_world (stub [] None)) _ 3
            (reaches_init _ _ _ _ (reaches_refl _ _)) _ _); reflexivity.
Defined.

Lemma no_remote_calls lib level A (m : M A) w :
  built lib level (λ c, is_remote c = false) A m →
  List.filter is_remote (calls_since w (snd (m w))) = [].
Proof.
  intros Hm. destruct (built_emits _ _ _ _ _ Hm w) as (new & Ht & Hnew).
  unfold calls_since. rewrite Ht, drop_app_length. by apply filter_remote_nil.
Qed.

(** X2: the constructor and the five accessors of the fixed entries never
    make a remote method call: what they call in the bus library are the
    constructors of connections, proxy objects and interface wrappers. *)
Theorem accessors_make_no_remote_call lib :
  (∀ level w, List.filter is_remote (calls_since w (snd (__init__ lib level w))) = [])
  ∧ (∀ self m w, fixed_accessor m = true →
       List.filter is_remote (calls_since w (snd (perform lib self m w))) = []).
Proof.
  split.
  - intros level w. eapply no_remote_calls, built_init. auto.
  - intros self m w Hm. apply (no_remote_calls lib (dbus_level self)).
    destruct m; try discriminate; simpl; apply built_bind;
      try (intros _; apply built_ret).
    + by apply built_add_systemd.
    + by apply built_add_systemd_manager.
    + by apply built_add_systemd_properties.
    + by apply built_add_dbus.
    + by apply built_add_dbus_interface.
Qed.

Lemma accessors_make_no_remote_call_witness :
  List.filter is_remote
    (calls_since (session_world (stub [] None))
       (snd (perform (stub [] None) session Add_systemd_properties
               (session_world (stub [] None))))) = [].
Proof.
  exact (proj2 (accessors_make_no_remote_call (stub [] None)) session
           Add_systemd_properties (session_world (stub [] None)) eq_refl).
Defined.

(** ** The operations on the manager and on the bus daemon *)

(** X3: with the manager interface in place, [reload_systemd],
    [list_systemd_jobs], [list_units_by_patterns] and [unset_systemd_vars]
    each make one remote call on it, [Reload()], [ListJobs()],
    [ListUnitsByPatterns(states, patterns)] and
    [UnsetEnvironment(vars_list)], with the arguments as the caller gave
    them.  The first three return what the call returns;
    [unset_systemd_vars] drops it and returns [None].  A fault of the call is
    raised in all four. *)
Theorem manager_operations lib self w w1 h :
  add_systemd_manager lib self w = (Ok tt, w1) →
  cached (dbus_level self) "systemd_manager" w1 = Some (Handle h) →
  reload_systemd lib self w
    = (outcome lib (trace w1) (Method h "Reload" []), called (Method h "Reload" []) w1)
  ∧ list_systemd_jobs lib self w
    = (outcome lib (trace w1) (Method h "ListJobs" []),
       called (Method h "ListJobs" []) w1)
  ∧ (∀ states patterns c,
       c = Method h "ListUnitsByPatterns" [VList states; VList patterns] →
       list_units_by_patterns lib self states patterns w
         = (outcome lib (trace w1) c, called c w1))
  ∧ (∀ vars_list c,
       c = Method h "UnsetEnvironment" [VList vars_list] →
       unset_systemd_vars lib self vars_list w
         = (match outcome lib (trace w1) c with
            | Ok _ => Ok tt
            | Raise e => Raise e
            end, called c w1))
  ∧ (∀ name args,
       List.filter is_remote (calls_since w (called (Method h name args) w1))
         = [Method h name args]).
Proof.
  intros Hready Hmanager.
  pose proof (λ name args, manager_call_run lib self w w1 h name args Hready Hmanager)
    as Hcall.
  split; [apply Hcall|]. split; [apply Hcall|]. split; [|split].
  - intros states patterns c ->. apply Hcall.
  - intros vars_list c ->. unfold unset_systemd_vars.
    rewrite (bind_Ok _ _ _ _ _ Hready).
    rewrite (bind_Ok _ _ _ _ _ (getitem_cached _ _ _ _ Hmanager)).
    unfold bind, ret, outcome. rewrite invoke_run.
    by destruct (fault_of lib (trace w1) _).
  - intros name args. apply Hcall.
Qed.

Lemma manager_operations_witness :
  list_units_by_patterns (stub [] None) session ["active"] ["*.service"]
    (session_world (stub [] None))
  = (Ok VNone,
     called (Method 2 "ListUnitsByPatterns" [VList ["active"]; VList ["*.service"]])
       (snd (add_systemd_manager (stub [] None) session (session_world (stub [] None))))).
Proof.
  set (lib := stub [] None).
  refine (proj1 (proj2 (proj2
    (manager_operations lib session (session_world lib)
       (snd (add_systemd_manager lib session (session_world lib))) 2 _ _)))
    ["active"] ["*.service"] _ eq_refl); reflexivity.
Defined.

(** X4: with the interface of the bus daemon in place, [set_dbus_vars]
    makes one remote call, [UpdateActivationEnvironment], on it; the
    argument is the dictionary of the caller, passed on as it is and not
    turned into assignment strings.  It returns [None] whatever the call
    returns, and raises the fault of the call. *)
Theorem set_dbus_vars_call lib self vars_dict w w1 h c :
  add_dbus_interface lib self w = (Ok tt, w1) →
  cached (dbus_level self) "dbus_interface" w1 = Some (Handle h) →
  c = Method h "UpdateActivationEnvironment" [VDict vars_dict] →
  set_dbus_vars lib self vars_dict w
    = (match outcome lib (trace w1) c with
       | Ok _ => Ok tt
       | Raise e => Raise e
       end, called c w1)
  ∧ List.filter is_remote (calls_since w (called c w1)) = [c].
Proof.
  intros Hready Hiface ->. split.
  - unfold set_dbus_vars. rewrite (bind_Ok _ _ _ _ _ Hready).
    rewrite (bind_Ok _ _ _ _ _ (getitem_cached _ _ _ _ Hiface)).
    unfold bind, ret, outcome. rewrite invoke_run.
    by destruct (fault_of lib (trace w1) _).
  - pose proof (no_remote_calls lib (dbus_level self) _ (add_dbus_interface lib self) w
                  (built_add_dbus_interface _ _ _ (λ _ H, H) _ eq_refl)) as Hnone.
    rewrite Hready in Hnone. simpl in Hnone.
    destruct (built_emits _ _ _ _ _
                (built_add_dbus_interface lib (dbus_level self) (λ _, True)
                   (λ _ _, I) self eq_refl) w) as (new & Ht & _).
    rewrite Hready in Ht. simpl in Ht. unfold calls_since in *.
    rewrite Ht, drop_app_length in Hnone. unfold called. simpl.
    by rewrite Ht, <-app_assoc, drop_app_length, List.filter_app, Hnone.
Qed.

Lemma set_dbus_vars_call_witness :
  set_dbus_vars (stub [] None) session [("LANG", "C")] (session_world (stub [] None))
  = (Ok tt,
     called (Method 2 "UpdateActivationEnvironment" [VDict [("LANG", "C")]])
       (snd (add_dbus_interface (stub [] None) session (session_world (stub [] None))))).
Proof.
  set (lib := stub [] None).
  refine (proj1 (set_dbus_vars_call lib session [("LANG", "C")] (session_world lib)
            (snd (add_dbus_interface lib session (session_world lib))) 2 _ _ _ eq_refl));
    reflexivity.
Defined.

(** ** The life of an entry *)

(** X5: nothing is ever taken out of the cache or replaced in it.  From a
    world that constructions and method calls have led to, whatever is
    constructed or called afterwards, every object cached under a key is
    still the object under that key, and every wrapper cached for a unit is
    still the wrapper of that unit. *)
Theorem cache_only_grows lib w w' :
  reaches lib initial_world w →
  reaches lib w w' →
  (∀ level key h,
     cached level key w = Some (Handle h) → cached level key w' = Some (Handle h))
  ∧ (∀ level unit_id h,
       wrapper level unit_id w = Some h → wrapper level unit_id w' = Some h).
Proof.
  intros Hw Hw'.
  destruct (reaches_keeps lib w w' (reachable_cache_ok lib w Hw) Hw') as [_ Hg].
  split.
  - intros level key h. apply (proj2 Hg level key (Handle h)).
  - intros level unit_id h. by apply grows_wrapper.
Qed.

Lemma cache_only_grows_witness :
  cached "session" "bus"
    (snd (perform (stub [] (Some "x.service")) session (Get_unit_property "x.service" "Id")
            (session_world (stub [] (Some "x.service")))))
  = Some (Handle 0).
Proof.
  set (lib := stub [] (Some "x.service")).
  exact (proj1 (cache_only_grows lib (session_world lib) _
                  (reaches_init _ _ _ _ (reaches_refl _ _))
                  (reaches_perform _ _ session (Get_unit_property "x.service" "Id") _
                     (reaches_refl _ _)))
           "session" "bus" 0 eq_refl).
Defined.

(** ** The keys a method assigns to *)

Section Writes.

Variable lib : library.
Variable level : string.

Lemma writes_ret keys {A} (a : A) : writes lib level keys A (ret a).
Proof. exact (writes_lift lib level keys A (Ok a)). Qed.

Lemma writes_raise keys {A} (e : exn) : writes lib level keys A (raise e).
Proof. exact (writes_lift lib level keys A (Raise e)). Qed.

Lemma writes_weaken keys keys' A (m : M A) :
  keys ⊆ keys' → writes lib level keys A m → writes lib level keys' A m.
Proof.
  intros Hsub. induction 1; try by constructor.
  constructor; [by apply Hsub|done].
Qed.

Ltac compose :=
  repeat (cbv zeta;
          first [ match goal with
                  | H : _ |- writes _ _ _ _ _ => simple apply H
                  end
                | simple apply writes_bind; [|intros ?]
                | simple apply writes_ret
                | simple apply writes_raise
                | simple apply writes_lift
                | simple apply writes_level_objects
                | simple apply writes_create
                | simple apply writes_remote
                | simple apply writes_setitem; [set_solver|done]
                | match goal with
                  | |- writes _ _ _ _ (if ?b then _ else _) => destruct b
                  | |- writes _ _ _ _ (match ?e with _ => _ end) => destruct e
                  end ]).

Lemma writes_attribute keys obj name : writes lib level keys _ (attribute obj name).
Proof. unfold attribute. compose. Qed.

Lemma writes_invoke keys obj name args :
  writes lib level keys _ (invoke lib obj name args).
Proof. unfold invoke. pose proof (writes_attribute keys). compose. Qed.

Lemma writes_contains keys key : writes lib level keys _ (contains level key).
Proof. unfold contains. compose. Qed.

Lemma writes_getitem keys key : writes lib level keys _ (getitem level key).
Proof. unfold getitem. compose. Qed.

Lemma writes_contains_unit keys unit_id :
  writes lib level keys _ (contains_unit level unit_id).
Proof. unfold contains_unit. pose proof (writes_getitem keys). compose. Qed.

Lemma writes_getitem_unit keys unit_id :
  writes lib level keys _ (getitem_unit level unit_id).
Proof. unfold getitem_unit. pose proof (writes_getitem keys). compose. Qed.

Lemma writes_setitem_unit keys unit_id h :
  "unit_properties" ∈ keys → writes lib level keys _ (setitem_unit level unit_id h).
Proof.
  intros Hkey. unfold setitem_unit. pose proof (writes_getitem keys).
  compose.
Qed.

Lemma writes_init : writes lib level ["bus"] _ (__init__ lib level).
Proof. unfold __init__. pose proof (writes_contains ["bus"]). compose. Qed.

Variable self : instance.
Hypothesis self_level : dbus_level self = level.

Lemma writes_add_systemd : writes lib level ["systemd"] _ (add_systemd lib self).
Proof.
  unfold add_systemd. rewrite self_level.
  pose proof (writes_contains ["systemd"]). pose proof (writes_getitem ["systemd"]).
  pose proof (writes_attribute ["systemd"]). compose.
Qed.

Lemma writes_add_systemd_manager :
  writes lib level ["systemd"; "systemd_manager"] _ (add_systemd_manager lib self).
Proof.
  unfold add_systemd_manager. rewrite self_level.
  pose proof (writes_contains ["systemd"; "systemd_manager"]).
  pose proof (writes_getitem ["systemd"; "systemd_manager"]).
  pose proof (writes_weaken ["systemd"] ["systemd"; "systemd_manager"] _ _
                ltac:(intros ?; rewrite !elem_of_cons; tauto) writes_add_systemd).
  compose.
Qed.

Lemma writes_add_systemd_properties :
  writes lib level ["systemd"; "systemd_properties"] _ (add_systemd_properties lib self).
Proof.
  unfold add_systemd_properties. rewrite self_level.
  pose proof (writes_contains ["systemd"; "systemd_properties"]).
  pose proof (writes_getitem ["systemd"; "systemd_properties"]).
  pose proof (writes_weaken ["systemd"] ["systemd"; "systemd_properties"] _ _
                ltac:(intros ?; rewrite !elem_of_cons; tauto) writes_add_systemd).
  compose.
Qed.

Lemma writes_add_systemd_unit_properties unit_id :
  writes lib level ["systemd"; "systemd_manager"; "unit_properties"] _
    (add_systemd_unit_properties lib self unit_id).
Proof.
  unfold add_systemd_unit_properties. rewrite self_level.
  set (keys := ["systemd"; "systemd_manager"; "unit_properties"]).
  pose proof (writes_contains keys). pose proof (writes_getitem keys).
  pose proof (writes_attribute keys). pose proof (writes_invoke keys).
  pose proof (writes_contains_unit keys).
  pose proof (λ u h, writes_setitem_unit keys u h
                       ltac:(unfold keys; rewrite !elem_of_cons; tauto)).
  pose proof (writes_weaken ["systemd"; "systemd_manager"] keys _ _
                ltac:(unfold keys; intros ?; rewrite !elem_of_cons; tauto)
                writes_add_systemd_manager).
  compose.
Qed.

Lemma writes_add_dbus : writes lib level ["dbus"] _ (add_dbus lib self).
Proof.
  unfold add_dbus. rewrite self_level.
  pose proof (writes_contains ["dbus"]). pose proof (writes_getitem ["dbus"]).
  pose proof (writes_attribute ["dbus"]). compose.
Qed.

Lemma writes_add_dbus_interface :
  writes lib level ["dbus"; "dbus_interface"] _ (add_dbus_interface lib self).
Proof.
  unfold add_dbus_interface. rewrite self_level.
  pose proof (writes_contains ["dbus"; "dbus_interface"]).
  pose proof (writes_getitem ["dbus"; "dbus_interface"]).
  pose proof (writes_weaken ["dbus"] ["dbus"; "dbus_interface"] _ _
                ltac:(intros ?; rewrite !elem_of_cons; tauto) writes_add_dbus).
  compose.
Qed.

Lemma writes_perform m : writes lib level (written m) _ (perform lib self m).
Proof.
  pose proof writes_add_systemd. pose proof writes_add_systemd_manager.
  pose proof writes_add_systemd_properties. pose proof writes_add_dbus.
  pose proof writes_add_dbus_interface. pose proof writes_add_systemd_unit_properties.
  destruct m; unfold perform, get_unit_property, reload_systemd, list_systemd_jobs,
    set_dbus_vars, set_systemd_vars, unset_systemd_vars, get_systemd_vars,
    list_units_by_patterns, stop_unit, written; rewrite ?self_level;
    match goal with
    | |- writes _ _ ?keys _ _ =>
        pose proof (writes_getitem keys); pose proof (writes_getitem_unit keys);
        pose proof (writes_invoke keys)
    end; compose.
Qed.

(** *** What such a computation does to the cache *)

Variable keys : list string.

Lemma writes_frame A (m : M A) :
  writes lib level keys A m →
  ∀ w lvl key, lvl ≠ level ∨ key ∉ keys →
    cached lvl key (snd (m w)) = cached lvl key w.
Proof.
  induction 1 as [A r|A B m k _ IHm _ IHk|c|c| |key' e Hkey He];
    intros w lvl key Hother.
  - done.
  - unfold bind. specialize (IHm w lvl key Hother).
    destruct (m w) as [[a|e] w1]; simpl in *; [|done]. by rewrite IHk.
  - unfold create. by destruct (fault_of lib (trace w) c).
  - unfold remote. by destruct (fault_of lib (trace w) c).
  - unfold level_objects. by destruct (dbus_objects w !! level).
  - unfold setitem, store, level_objects, bind, cached.
    destruct (dbus_objects w !! level) as [objects|] eqn:Hl; simpl; [|done].
    destruct (decide (lvl = level)) as [->|Hne].
    + rewrite lookup_insert_eq, Hl. simpl. destruct Hother as [?|Hk]; [done|].
      rewrite lookup_insert_ne; [done|]. by intros ->.
    + by rewrite lookup_insert_ne.
Qed.

Lemma writes_levels A (m : M A) :
  writes lib level keys A m →
  ∀ w lvl, is_Some (dbus_objects (snd (m w)) !! lvl) ↔ is_Some (dbus_objects w !! lvl).
Proof.
  induction 1 as [A r|A B m k _ IHm _ IHk|c|c| |key' e Hkey He]; intros w lvl.
  - done.
  - unfold bind. specialize (IHm w lvl).
    destruct (m w) as [[a|e] w1]; simpl in *; [|done]. by rewrite IHk.
  - unfold create. by destruct (fault_of lib (trace w) c).
  - unfold remote. by destruct (fault_of lib (trace w) c).
  - unfold level_objects. by destruct (dbus_objects w !! level).
  - unfold setitem, store, level_objects, bind.
    destruct (dbus_objects w !! level) as [objects|] eqn:Hl; simpl; [|done].
    rewrite lookup_insert_is_Some. split.
    + intros [<-|[_ ?]]; [by rewrite Hl|done].
    + intros ?. destruct (decide (level = lvl)); auto.
Qed.

Lemma writes_shaped A (m : M A) :
  writes lib level keys A m → ∀ w, shaped w → shaped (snd (m w)).
Proof.
  induction 1 as [A r|A B m k _ IHm _ IHk|c|c| |key' e Hkey He]; intros w Hw.
  - done.
  - unfold bind. specialize (IHm w Hw).
    destruct (m w) as [[a|e] w1]; simpl in *; [|done]. by apply IHk.
  - unfold create. by destruct (fault_of lib (trace w) c).
  - unfold remote. by destruct (fault_of lib (trace w) c).
  - unfold level_objects. by destruct (dbus_objects w !! level).
  - unfold setitem, store, level_objects, bind.
    destruct (dbus_objects w !! level) as [objects|] eqn:Hl; simpl; [|done].
    intros lvl key e'. unfold cached. simpl.
    destruct (decide (lvl = level)) as [->|Hne].
    + rewrite lookup_insert_eq. simpl. destruct (decide (key = key')) as [->|Hk].
      * rewrite lookup_insert_eq. by intros [= <-].
      * rewrite lookup_insert_ne by done. intros He'. apply (Hw level key e').
        unfold cached. by rewrite Hl.
    + rewrite lookup_insert_ne by done. apply (Hw lvl key e').
Qed.

End Writes.

(** X6: a construction assigns to ["bus"] of its level and to nothing
    else, and a method assigns only to the keys of the accessors it goes
    through: every other entry of the cache, in its own level and in the
    other, is after the call what it was before, whether the call returns or
    raises.  So no method touches the cached bus, the operations on the
    manager leave the entries of the bus daemon alone, and [set_dbus_vars]
    leaves those of the manager alone. *)
Theorem key_frame lib :
  (∀ level w lvl key, lvl ≠ level ∨ key ≠ "bus" →
     cached lvl key (snd (__init__ lib level w)) = cached lvl key w)
  ∧ (∀ self m w lvl key, lvl ≠ dbus_level self ∨ key ∉ written m →
       cached lvl key (snd (perform lib self m w)) = cached lvl key w).
Proof.
  split.
  - intros level w lvl key Hother.
    apply (writes_frame lib level ["bus"] _ _ (writes_init lib level)).
    destruct Hother as [?|Hkey]; [by left|right].
    by rewrite elem_of_cons, elem_of_nil; intros [|[]].
  - intros self m w lvl key Hother.
    by apply (writes_frame lib (dbus_level self) (written m) _ _
                (writes_perform lib (dbus_level self) self eq_refl m)).
Qed.

Lemma key_frame_witness :
  cached "session" "systemd"
    (snd (perform (stub [] None) session (Set_dbus_vars [("LANG", "C")])
            (session_world (stub [] None))))
  = cached "session" "systemd" (session_world (stub [] None)).
Proof.
  refine (proj2 (key_frame (stub [] None)) session (Set_dbus_vars [("LANG", "C")])
            (session_world (stub [] None)) "session" "systemd" _).
  right. simpl. rewrite !elem_of_cons, elem_of_nil. by intros [|[|]].
Defined.

Lemma written_known m : written m ⊆ known_keys.
Proof.
  destruct m; simpl; unfold known_keys; intros key;
    rewrite !elem_of_cons, !elem_of_nil; tauto.
Qed.

Lemma cached_initial level key : cached level key initial_world = None.
Proof.
  unfold cached, initial_world. simpl.
  rewrite !lookup_insert. repeat case_decide; simpl; by rewrite ?lookup_empty.
Qed.

(** X7: the cache keeps the shape it is declared with.  In every world that
    constructions and method calls lead to, the levels are ["system"] and
    ["session"] and no other, every key of a level is one of the seven keys
    of the source, ["unit_properties"] holds the nested dictionary and every
    other key an object of the bus library. *)
Theorem cache_shape lib w :
  reaches lib initial_world w →
  (∀ lvl, is_Some (dbus_objects w !! lvl) ↔ lvl = "system" ∨ lvl = "session")
  ∧ (∀ lvl key e, cached lvl key w = Some e → key ∈ known_keys ∧ well_shaped key e).
Proof.
  induction 1 as [|level w _ [IHl IHk]|self m w _ [IHl IHk]].
  - split.
    + intros lvl. unfold initial_world. simpl. rewrite !lookup_insert_is_Some.
      rewrite lookup_empty. split.
      * intros [ <- | [_ [ <- | [_ [? ?]]]]]; auto. done.
      * intros [ -> | -> ]; [by left|right]. split; [done|by left].
    + intros lvl key e He. by rewrite cached_initial in He.
  - split.
    + intros lvl. by rewrite (writes_levels lib level ["bus"] _ _ (writes_init lib level)).
    + intros lvl key e He.
      pose proof (writes_frame lib level ["bus"] _ _ (writes_init lib level) w lvl key)
        as Hframe.
      split.
      * destruct (decide (key = "bus")) as [->|Hkey]; [by left|].
        rewrite Hframe in He; [by apply (IHk lvl key e)|]. right.
        by rewrite elem_of_cons, elem_of_nil; intros [|[]].
      * apply (writes_shaped lib level ["bus"] _ _ (writes_init lib level) w
                 (λ l k e' H, proj2 (IHk l k e' H)) lvl key e He).
  - pose proof (writes_perform lib (dbus_level self) self eq_refl m) as Hm. split.
    + intros lvl. by rewrite (writes_levels lib _ _ _ _ Hm).
    + intros lvl key e He. split.
      * destruct (decide (key ∈ written m)) as [Hkey|Hkey];
          [by apply written_known in Hkey|].
        rewrite (writes_frame lib _ _ _ _ Hm w lvl key) in He by auto.
        by apply (IHk lvl key e).
      * apply (writes_shaped lib _ _ _ _ Hm w
                 (λ l k e' H, proj2 (IHk l k e' H)) lvl key e He).
Qed.

Lemma cache_shape_witness :
  "systemd_manager" ∈ known_keys ∧ well_shaped "systemd_manager" (Handle 2).
Proof.
  set (lib := stub [] None).
  exact (proj2 (cache_shape lib
                  (snd (perform lib session Reload_systemd
                          (snd (__init__ lib "session" initial_world))))
                  (reaches_perform _ _ _ _ _ (reaches_init _ _ _ _ (reaches_refl _ _))))
           "session" "systemd_manager" (Handle 2) eq_refl).
Defined.

(** ** What a method may raise *)

Section Safe.

Variable lib : library.
Variable level : string.
Variable E : exn → Prop.
Hypothesis E_fault : ∀ f, E (DBusException f).

Lemma ready_objects w :
  ready level w → ∃ objects, dbus_objects w !! level = Some objects.
Proof.
  intros [[e He] _]. unfold cached in He.
  destruct (dbus_objects w !! level) as [objects|]; [eauto|done].
Qed.

Lemma ready_call w t n : ready level w → ready level (World (dbus_objects w) t n).
Proof. done. Qed.

Lemma safe_bind {A B} (m : M A) (k : A → M B) P w :
  safe level E m (λ a w', safe level E (k a) P w') w → safe level E (bind m k) P w.
Proof.
  intros Hm Hw. specialize (Hm Hw). unfold bind.
  destruct (m w) as [[a|e] w']; [|done]. destruct Hm as [Hw' Hk]. by apply Hk.
Qed.

Lemma safe_conseq {A} (m : M A) (P P' : A → world → Prop) w :
  safe level E m P w → (∀ a w', ready level w' → P a w' → P' a w') →
  safe level E m P' w.
Proof.
  intros Hm HP Hw. specialize (Hm Hw). destruct (m w) as [[a|e] w']; [|done].
  destruct Hm as [Hw' Ha]. auto.
Qed.

Lemma safe_ret {A} (a : A) (P : A → world → Prop) w :
  P a w → safe level E (ret a) P w.
Proof. by intros HP Hw. Qed.

Lemma safe_lift {A} (r : result A) (P : A → world → Prop) w :
  (∀ a, r = Ok a → P a w) → (∀ e, r = Raise e → E e) → safe level E (lift r) P w.
Proof. intros HP HE Hw. unfold lift. destruct r; auto. Qed.

Lemma safe_contains key (P : bool → world → Prop) w :
  (∀ objects, dbus_objects w !! level = Some objects →
     P (bool_decide (is_Some (objects !! key))) w) →
  safe level E (contains level key) P w.
Proof.
  intros HP Hw. destruct (ready_objects w Hw) as [objects Hl].
  rewrite (contains_run _ _ _ _ Hl). auto.
Qed.

Lemma safe_getitem key (P : entry → world → Prop) w :
  key ≠ "unit_properties" →
  (ready level w → is_Some (cached level key w)) →
  (∀ h, cached level key w = Some (Handle h) → P (Handle h) w) →
  safe level E (getitem level key) P w.
Proof.
  intros Hkey Hin HP Hw. destruct (Hin Hw) as [e He].
  rewrite (getitem_cached _ _ _ _ He). split; [done|].
  destruct e as [h|m]; [by apply HP|]. by destruct (proj2 Hw key _ He).
Qed.

Lemma safe_attribute h name (P : handle → world → Prop) w :
  P h w → safe level E (attribute (Handle h) name) P w.
Proof. by intros HP Hw. Qed.

Lemma safe_create c (P : handle → world → Prop) w :
  (∀ w', w' = World (dbus_objects w) (trace w ++ [c]) (S (next_handle w)) →
     P (next_handle w) w') →
  safe level E (create lib c) P w.
Proof.
  intros HP Hw. unfold create. destruct (fault_of lib (trace w) c); [by split|].
  split; [done|]. by apply HP.
Qed.

Lemma safe_invoke h name args (P : value → world → Prop) w :
  (∀ v, P v (called (Method h name args) w)) →
  safe level E (invoke lib (Handle h) name args) P w.
Proof.
  intros HP Hw. rewrite invoke_run.
  destruct (fault_of lib (trace w) (Method h name args)); by split.
Qed.

Lemma safe_setitem key e (P : unit → world → Prop) w :
  well_shaped key e →
  (∀ w', cached level key w' = Some e →
         (∀ k, k ≠ key → cached level k w' = cached level k w) →
         P tt w') →
  safe level E (setitem level key e) P w.
Proof.
  intros He HP Hw. destruct (ready_objects w Hw) as [objects Hl].
  rewrite (setitem_run _ _ _ _ _ Hl).
  set (w' := World _ _ _).
  assert (Hkey : cached level key w' = Some e).
  { unfold cached. simpl. rewrite lookup_insert_eq. simpl. by rewrite lookup_insert_eq. }
  assert (Hother : ∀ k, k ≠ key → cached level k w' = cached level k w).
  { intros k Hk. unfold cached. simpl. rewrite lookup_insert_eq, Hl. simpl.
    by rewrite lookup_insert_ne. }
  split; [|by apply HP]. destruct Hw as [Hbus Hshape]. split.
  - destruct (decide ("bus" = key)) as [<-|Hk]; [by rewrite Hkey|].
    by rewrite Hother.
  - intros k e'. destruct (decide (k = key)) as [->|Hk].
    + rewrite Hkey. by intros [= <-].
    + rewrite Hother by done. apply Hshape.
Qed.

Lemma safe_units w :
  ready level w →
  is_Some (cached level "unit_properties" w) →
  ∃ m, cached level "unit_properties" w = Some (Units m).
Proof.
  intros Hw [[h|m] He]; [|eauto]. by destruct (proj2 Hw _ _ He).
Qed.

Lemma safe_contains_unit unit_id (P : bool → world → Prop) w :
  (ready level w → is_Some (cached level "unit_properties" w)) →
  (∀ m, cached level "unit_properties" w = Some (Units m) →
     P (bool_decide (is_Some (m !! unit_id))) w) →
  safe level E (contains_unit level unit_id) P w.
Proof.
  intros Hin HP Hw. destruct (safe_units w Hw (Hin Hw)) as [m Hm].
  unfold contains_unit. rewrite (bind_Ok _ _ _ _ _ (getitem_cached _ _ _ _ Hm)).
  split; [done|]. by apply HP.
Qed.

Lemma safe_getitem_unit unit_id (P : entry → world → Prop) w :
  (ready level w → is_Some (wrapper level unit_id w)) →
  (∀ h, wrapper level unit_id w = Some h → P (Handle h) w) →
  safe level E (getitem_unit level unit_id) P w.
Proof.
  intros Hin HP Hw. destruct (Hin Hw) as [h Hh].
  rewrite (getitem_unit_run _ _ _ _ Hh). split; [done|]. by apply HP.
Qed.

Lemma safe_setitem_unit unit_id h (P : unit → world → Prop) w :
  (ready level w → is_Some (cached level "unit_properties" w)) →
  (∀ w', wrapper level unit_id w' = Some h →
         (∀ k, k ≠ "unit_properties" → cached level k w' = cached level k w) →
         P tt w') →
  safe level E (setitem_unit level unit_id h) P w.
Proof.
  intros Hin HP Hw. destruct (safe_units w Hw (Hin Hw)) as [m Hm].
  unfold setitem_unit. rewrite (bind_Ok _ _ _ _ _ (getitem_cached _ _ _ _ Hm)).
  apply safe_setitem; [done| |done]. intros w' Hkey Hother. apply HP; [|done].
  unfold wrapper. by rewrite Hkey, lookup_insert_eq.
Qed.

End Safe.

Ltac safe_step :=
  cbv beta zeta;
  lazymatch goal with
  | |- safe _ _ (bind (contains_unit _ _) _) _ _ => fail
  | _ => idtac
  end;
  first
    [ simple apply safe_bind
    | simple apply safe_ret
    | simple apply safe_attribute
    | simple apply safe_create; [assumption|intros ? ->]
    | simple apply safe_invoke; [assumption|intros ?]
    | simple apply safe_contains; intros ? ?
    | match goal with
      | |- safe _ _ (if negb (bool_decide ?P) then _ else _) _ _ =>
          destruct (bool_decide_reflect P); simpl negb; cbv iota
      end ].

(** The end of an accessor: the object is created and stored under [key]. *)
Ltac safe_store :=
  repeat safe_step;
  apply safe_setitem; [done|];
  let H := fresh in intros ? H _; rewrite H; eauto.

Section SafeMethods.

Variable lib : library.
Variable self : instance.
Variable E : exn → Prop.
Hypothesis E_fault : ∀ f, E (DBusException f).

Lemma add_systemd_safe w :
  safe (dbus_level self) E (add_systemd lib self)
    (λ _ w', is_Some (cached (dbus_level self) "systemd" w')) w.
Proof.
  unfold add_systemd. repeat safe_step.
  - by rewrite (cached_lookup _ _ _ _ H).
  - apply safe_getitem; [done|by intros [? _]|]. intros bus Hbus. safe_store.
Qed.

Lemma add_systemd_manager_safe w :
  safe (dbus_level self) E (add_systemd_manager lib self)
    (λ _ w', is_Some (cached (dbus_level self) "systemd_manager" w')) w.
Proof.
  unfold add_systemd_manager. safe_step.
  eapply safe_conseq; [apply add_systemd_safe|]. intros [] w1 _ Hsystemd.
  repeat safe_step.
  - by rewrite (cached_lookup _ _ _ _ H).
  - apply safe_getitem; [done|done|]. intros h Hh. safe_store.
Qed.

Lemma add_systemd_properties_safe w :
  safe (dbus_level self) E (add_systemd_properties lib self)
    (λ _ w', is_Some (cached (dbus_level self) "systemd_properties" w')) w.
Proof.
  unfold add_systemd_properties. safe_step.
  eapply safe_conseq; [apply add_systemd_safe|]. intros [] w1 _ Hsystemd.
  repeat safe_step.
  - by rewrite (cached_lookup _ _ _ _ H).
  - apply safe_getitem; [done|done|]. intros h Hh. safe_store.
Qed.

Lemma add_dbus_safe w :
  safe (dbus_level self) E (add_dbus lib self)
    (λ _ w', is_Some (cached (dbus_level self) "dbus" w')) w.
Proof.
  unfold add_dbus. repeat safe_step.
  - by rewrite (cached_lookup _ _ _ _ H).
  - apply safe_getitem; [done|by intros [? _]|]. intros bus Hbus. safe_store.
Qed.

Lemma add_dbus_interface_safe w :
  safe (dbus_level self) E (add_dbus_interface lib self)
    (λ _ w', is_Some (cached (dbus_level self) "dbus_interface" w')) w.
Proof.
  unfold add_dbus_interface. safe_step.
  eapply safe_conseq; [apply add_dbus_safe|]. intros [] w1 _ Hdbus.
  repeat safe_step.
  - by rewrite (cached_lookup _ _ _ _ H).
  - apply safe_getitem; [done|done|]. intros h Hh. safe_store.
Qed.

Lemma unit_wrapper_safe w unit_id unit_path :
  is_Some (cached (dbus_level self) "unit_properties" w) →
  safe (dbus_level self) E
    (known <- contains_unit (dbus_level self) unit_id ;;
     if negb known then
       iface <- create lib (Interface (Handle unit_path) "org.freedesktop.DBus.Properties") ;;
       setitem_unit (dbus_level self) unit_id iface
     else ret tt)
    (λ _ w', is_Some (wrapper (dbus_level self) unit_id w')) w.
Proof.
  intros Hunits. apply safe_bind, safe_contains_unit; [done|]. intros m Hm.
  repeat safe_step.
  - unfold wrapper. by rewrite Hm.
  - apply safe_setitem_unit; [done|]. intros w' Hw' _. rewrite Hw'. eauto.
Qed.

Lemma add_systemd_unit_properties_safe w unit_id :
  safe (dbus_level self) E (add_systemd_unit_properties lib self unit_id)
    (λ _ w', is_Some (wrapper (dbus_level self) unit_id w')) w.
Proof.
  unfold add_systemd_unit_properties. safe_step.
  eapply safe_conseq; [apply add_systemd_manager_safe|]. intros [] w1 _ Hmanager.
  safe_step. apply safe_getitem; [done|by intros [? _]|]. intros bus Hbus.
  repeat safe_step.
  apply safe_getitem; [done|done|]. intros manager Hm.
  repeat safe_step.
  - apply unit_wrapper_safe. unfold cached. simpl in *. by rewrite H.
  - apply safe_setitem; [done|]. intros w' Hkey _.
    apply unit_wrapper_safe. rewrite Hkey. eauto.
Qed.

End SafeMethods.

Lemma iterate_Raise assignments e : iterate assignments = Raise e → unreadable e.
Proof. destruct assignments; try done. intros [= <-]. by right. Qed.

Ltac safe_accessor lem :=
  repeat simple apply safe_bind;
  eapply safe_conseq; [apply lem; by eauto|];
  intros [] ? _ ?; repeat safe_step.

Ltac safe_call :=
  apply safe_getitem; [done|done|]; intros ? ?; repeat safe_step; done.

Lemma perform_safe lib self m w :
  m ≠ Get_systemd_vars →
  safe (dbus_level self) is_fault (perform lib self m) (λ _ _, True) w.
Proof.
  assert (Hfault : ∀ f, is_fault (DBusException f)) by (intros f; by exists f).
  intros Hm. destruct m; try done; unfold perform, get_unit_property, reload_systemd,
    list_systemd_jobs, set_dbus_vars, set_systemd_vars, unset_systemd_vars,
    list_units_by_patterns, stop_unit; cbv zeta.
  - by safe_accessor add_systemd_safe.
  - by safe_accessor add_systemd_manager_safe.
  - by safe_accessor add_systemd_properties_safe.
  - by safe_accessor add_systemd_unit_properties_safe.
  - by safe_accessor add_dbus_safe.
  - by safe_accessor add_dbus_interface_safe.
  - safe_accessor add_systemd_unit_properties_safe.
    apply safe_getitem_unit; [done|]. intros h Hh. by repeat safe_step.
  - safe_accessor add_systemd_manager_safe. safe_call.
  - safe_accessor add_systemd_manager_safe. safe_call.
  - safe_accessor add_dbus_interface_safe. safe_call.
  - safe_accessor add_systemd_manager_safe. safe_call.
  - safe_accessor add_systemd_manager_safe. safe_call.
  - safe_accessor add_systemd_manager_safe. safe_call.
  - safe_accessor add_systemd_manager_safe. safe_call.
Qed.

Lemma get_systemd_vars_safe lib self w :
  safe (dbus_level self) (λ e, is_fault e ∨ unreadable e)
    (perform lib self Get_systemd_vars) (λ _ _, True) w.
Proof.
  assert (Hfault : ∀ f, is_fault (DBusException f) ∨ unreadable (DBusException f)).
  { intros f. left. by exists f. }
  unfold perform, get_systemd_vars.
  safe_accessor add_systemd_properties_safe.
  apply safe_getitem; [done|done|]. intros h Hh. repeat safe_step.
  apply safe_lift.
  - intros items _. safe_step. apply safe_lift.
    + intros env _. by repeat safe_step.
    + intros e He. right. left. by apply parse_assignments_Raise in He.
  - intros e He. right. by apply iterate_Raise in He.
Qed.

Lemma reaches_trans lib w1 w2 w3 :
  reaches lib w1 w2 → reaches lib w2 w3 → reaches lib w1 w3.
Proof. intros H12. induction 1; [done|by constructor..]. Qed.

Lemma reachable_shaped lib w : reaches lib initial_world w → shaped w.
Proof.
  induction 1 as [|level w _ IH|self m w _ IH].
  - intros level key e He. by rewrite cached_initial in He.
  - by apply (writes_shaped lib level ["bus"] _ _ (writes_init lib level)).
  - by apply (writes_shaped lib _ _ _ _
                (writes_perform lib (dbus_level self) self eq_refl m)).
Qed.

(** What a construction that returns leaves in the cache. *)
Lemma init_returned lib level w0 self w :
  __init__ lib level w0 = (Ok self, w) →
  self = Instance level ∧ is_Some (cached level "bus" w).
Proof.
  unfold __init__. case_bool_decide; [|done]. cbv zeta. simpl dbus_level.
  destruct (dbus_objects w0 !! level) as [objects|] eqn:Hl.
  2:{ unfold contains, level_objects, bind. by rewrite Hl. }
  rewrite (bind_Ok _ _ _ _ _ (contains_run _ _ _ _ Hl)).
  destruct (objects !! "bus") as [bus|] eqn:Hbus; simpl.
  - unfold bind, ret. intros [= <- <-].
    split; [done|]. rewrite (cached_lookup _ _ _ _ Hl), Hbus. eauto.
  - assert (Hstored : ∀ c r w',
      bind (bind (create lib c) (λ bus, setitem level "bus" (Handle bus)))
           (λ _, ret (Instance level)) w0 = (Ok r, w') →
      r = Instance level ∧ is_Some (cached level "bus" w')).
    { intros c r w'. unfold bind, create, ret.
      destruct (fault_of lib (trace w0) c); [done|].
      rewrite (setitem_run _ _ _ _ objects) by done. intros [= <- <-].
      split; [done|]. unfold cached. simpl. rewrite lookup_insert_eq. simpl.
      rewrite lookup_insert_eq. eauto. }
    destruct (String.eqb level "system"); apply Hstored.
Qed.

(** X8: on an instance that the constructor has returned, whatever has been
    constructed and called since, no method fails for a reason of its own:
    no [KeyError] for a missing level or entry, no [AttributeError] or
    [TypeError] for an entry of the wrong kind.  A method raises only what
    the bus library raises, and [get_systemd_vars] in addition the errors of
    reading the reply ([ValueError] for an assignment without ["="],
    [TypeError] for a reply that cannot be iterated). *)
Theorem methods_raise_only_faults lib level self w0 w w' m e :
  reaches lib initial_world w0 →
  __init__ lib level w0 = (Ok self, w) →
  reaches lib w w' →
  fst (perform lib self m w') = Raise e →
  is_fault e ∨ (m = Get_systemd_vars ∧ unreadable e).
Proof.
  intros Hw0 Hinit Hw' Hraise.
  destruct (init_returned lib level w0 self w Hinit) as [-> Hbus].
  assert (Hw : reaches lib initial_world w).
  { replace w with (snd (__init__ lib level w0)) by by rewrite Hinit.
    by constructor. }
  assert (Hready : ready level w').
  { split.
    - destruct (reaches_keeps lib w w' (reachable_cache_ok lib w Hw) Hw') as [_ Hg].
      by eapply grows_is_Some.
    - intros key e' He'.
      apply (reachable_shaped lib w' (reaches_trans _ _ _ _ Hw Hw') level key e' He'). }
  assert (m = Get_systemd_vars ∨ m ≠ Get_systemd_vars) as [ -> |Hm]
    by (destruct m; auto; by right).
  - pose proof (get_systemd_vars_safe lib (Instance level) w' Hready) as Hsafe.
    destruct (perform lib (Instance level) Get_systemd_vars w') as [[v|e'] w''];
      simpl in *; [done|]. injection Hraise as ->. destruct Hsafe as [_ [?|?]]; auto.
  - pose proof (perform_safe lib (Instance level) m w' Hm Hready) as Hsafe.
    destruct (perform lib (Instance level) m w') as [[v|e'] w'']; simpl in *; [done|].
    injection Hraise as ->. left. apply Hsafe.
Qed.

Lemma methods_raise_only_faults_witness :
  is_fault (DBusException "org.freedesktop.systemd1.NoSuchUnit")
  ∨ (Get_unit_property "nope.service" "Id" = Get_systemd_vars
     ∧ unreadable (DBusException "org.freedesktop.systemd1.NoSuchUnit")).
Proof.
  set (lib := stub [] (Some "nope.service")).
  exact (methods_raise_only_faults lib "session" session initial_world
           (session_world lib) (session_world lib)
           (Get_unit_property "nope.service" "Id")
           (DBusException "org.freedesktop.systemd1.NoSuchUnit")
           (reaches_refl _ _) eq_refl (reaches_refl _ _) eq_refl).
Defined.

(** ** Reading a property of a unit that is cached *)

(** X9: [get_unit_property] for a unit whose wrapper is cached still asks
    the manager for the unit and creates a proxy object for the path it is
    given; that object is dropped, the cache stays as it is, and [Get] is
    called on the wrapper cached earlier, whose reply or fault is the
    result.  When the manager no longer knows the unit, the fault of
    [GetUnit] is raised although the wrapper is cached. *)
Theorem get_unit_property_cached lib self unit_id unit_property
    w objects bus systemd manager units h :
  dbus_objects w !! dbus_level self = Some objects →
  objects !! "bus" = Some (Handle bus) →
  objects !! "systemd" = Some systemd →
  objects !! "systemd_manager" = Some (Handle manager) →
  objects !! "unit_properties" = Some (Units units) →
  units !! unit_id = Some h →
  let get_unit := Method manager "GetUnit" [VStr unit_id] in
  let get_object :=
    GetObject bus "org.freedesktop.systemd1" (reply_of lib (trace w) get_unit) in
  let get := Method h "Get" [VStr "org.freedesktop.systemd1.Unit"; VStr unit_property] in
  (∀ f, fault_of lib (trace w) get_unit = Some f →
     get_unit_property lib self unit_id unit_property w
       = (Raise (DBusException f), called get_unit w))
  ∧ (fault_of lib (trace w) get_unit = None →
     fault_of lib (trace w ++ [get_unit]) get_object = None →
     get_unit_property lib self unit_id unit_property w
       = (outcome lib (trace w ++ [get_unit; get_object]) get,
          World (dbus_objects w) (trace w ++ [get_unit; get_object; get])
            (S (next_handle w)))).
Proof.
  intros Hl Hbus Hsystemd Hmanager Hunits Hunit. cbv zeta.
  split; [intros f Hf|intros Hf Hg];
    unfold get_unit_property, add_systemd_unit_properties, add_systemd_manager,
      add_systemd, getitem_unit, contains_unit, setitem_unit, contains, getitem,
      setitem, store, level_objects, create, invoke, attribute, remote, bind, ret,
      raise, outcome, called;
    repeat (rewrite ?Hl; simpl; rewrite ?Hbus, ?Hsystemd, ?Hmanager, ?Hunits, ?Hunit,
              ?Hf, ?Hg; simpl).
  - done.
  - rewrite <-!app_assoc. simpl.
    by destruct (fault_of lib _ (Method h "Get" _)).
Qed.

Lemma get_unit_property_cached_witness :
  let lib := stub [] None in
  let w := snd (add_systemd_unit_properties lib session "foo.service" (session_world lib)) in
  get_unit_property lib session "foo.service" "ActiveState" w
  = (Ok VNone,
     World (dbus_objects w)
       (trace w ++
        [Method 2 "GetUnit" [VStr "foo.service"];
         GetObject 0 "org.freedesktop.systemd1"
           (VStr "/org/freedesktop/systemd1/unit/foo.service");
         Method 4 "Get" [VStr "org.freedesktop.systemd1.Unit"; VStr "ActiveState"]])
       (S (next_handle w))).
Proof.
  intros lib w.
  refine (proj2 (get_unit_property_cached lib session "foo.service" "ActiveState" w
            (<["unit_properties" := Units (<["foo.service" := 4]> ∅)]>
               (<["systemd_manager" := Handle 2]>
                  (<["systemd" := Handle 1]> (<["bus" := Handle 0]> ∅))))
            0 (Handle 1) 2 (<["foo.service" := 4]> ∅) 4 _ _ _ _ _ _) _ _);
    reflexivity.
Defined.

(** ** The dictionary that [get_systemd_vars] returns *)

Lemma dict_update_keys d k v :
  (dict_update d k v).*1 = if decide (k ∈ d.*1) then d.*1 else (d.*1 ++ [k])%list.
Proof.
  induction d as [|[k' v'] d IH]; [done|].
  cbn [dict_update]. rewrite (fmap_cons fst (k', v') d). cbn [fst].
  destruct (String.eqb k' k) eqn:Hk.
  - apply String.eqb_eq in Hk. subst k'. rewrite fmap_cons. cbn [fst].
    rewrite decide_True; [done|by left].
  - rewrite fmap_cons, IH. cbn [fst]. destruct (decide (k ∈ d.*1)) as [Hin|Hin].
    + rewrite decide_True; [done|by right].
    + rewrite decide_False; [done|]. rewrite elem_of_cons. intros [Heq|?]; [|done].
      subst k'. by rewrite String.eqb_refl in Hk.
Qed.

Lemma parse_assignments_keys items : ∀ env env',
  parse_assignments items env = Ok env' →
  NoDup env.*1 →
  NoDup env'.*1 ∧ ∀ var, var ∈ env'.*1 ↔ var ∈ env.*1 ∨ var ∈ names_of items.
Proof.
  induction items as [|a items IH]; intros env env'; simpl.
  - intros [= <-] Hnd. split; [done|]. intros var. rewrite elem_of_nil. tauto.
  - rewrite unpack2_split. unfold names_of, name_of. simpl.
    destruct (partition_eq a) as [[var' value']|]; simpl; [|done].
    intros Hparse Hnd.
    assert (Hnd' : NoDup (dict_update env var' value').*1).
    { rewrite dict_update_keys. case_decide; [done|].
      apply NoDup_app. split; [done|]. split; [|apply NoDup_singleton].
      intros x Hx. rewrite list_elem_of_singleton. by intros ->. }
    destruct (IH _ _ Hparse Hnd') as [Hnd'' Hin]. split; [done|].
    intros var. rewrite Hin, dict_update_keys, elem_of_cons.
    case_decide; [|rewrite elem_of_app, list_elem_of_singleton];
      intuition (subst; auto).
Qed.

(** X10: the dictionary that [get_systemd_vars] returns has every name
    once, and its names are exactly the names to which a string of the
    remote [Environment] assigns; an empty [Environment] gives the empty
    dictionary. *)
Theorem get_systemd_vars_names lib self w w1 h items env :
  add_systemd_properties lib self w = (Ok tt, w1) →
  cached (dbus_level self) "systemd_properties" w1 = Some (Handle h) →
  fault_of lib (trace w1) (Get_Environment h) = None →
  reply_of lib (trace w1) (Get_Environment h) = VList items →
  fst (get_systemd_vars lib self w) = Ok env →
  NoDup env.*1
  ∧ (∀ var, var ∈ env.*1 ↔ ∃ a, a ∈ items ∧ name_of a = Some var)
  ∧ (items = [] → env = []).
Proof.
  intros Hready Hiface Hfault Hreply.
  rewrite (get_systemd_vars_run lib self w w1 h items Hready Hiface Hfault Hreply).
  simpl. intros Hparse.
  destruct (parse_assignments_keys items [] env Hparse (NoDup_nil_2)) as [Hnd Hin].
  split; [done|]. split.
  - intros var. rewrite Hin. unfold names_of. rewrite list_elem_of_omap.
    simpl. rewrite elem_of_nil. tauto.
  - intros ->. simpl in Hparse. by injection Hparse as <-.
Qed.

Lemma get_systemd_vars_names_witness :
  NoDup [("A", "3"); ("B", "2")].*1.
Proof.
  set (lib := stub ["A=1"; "B=2"; "A=3"] None).
  exact (proj1 (get_systemd_vars_names lib session (session_world lib)
                  (snd (add_systemd_properties lib session (session_world lib)))
                  2 ["A=1"; "B=2"; "A=3"] [("A", "3"); ("B", "2")]
                  eq_refl eq_refl eq_refl eq_refl eq_refl)).
Defined.

Lemma dict_update_new d k v : k ∉ d.*1 → dict_update d k v = (d ++ [(k, v)])%list.
Proof.
  induction d as [|[k' v'] d IH]; simpl; [done|].
  rewrite elem_of_cons. intros Hk. destruct (String.eqb k' k) eqn:Hkk.
  - apply String.eqb_eq in Hkk. destruct Hk. by left.
  - rewrite IH; [done|]. intros ?. apply Hk. by right.
Qed.

Lemma parse_format vars_dict : ∀ env,
  NoDup (env ++ vars_dict)%list.*1 →
  Forall (λ p, ¬ has_eq p.1) vars_dict →
  parse_assignments (format_assignments vars_dict) env = Ok (env ++ vars_dict)%list.
Proof.
  induction vars_dict as [|[var value] d IH]; intros env Hnd Hnames; simpl.
  - by rewrite app_nil_r.
  - apply Forall_cons in Hnames as [Hvar Hnames]. simpl in Hvar.
    rewrite unpack2_split, partition_eq_app.
    2:{ destruct (partition_eq var) eqn:Hp; [|done]. destruct Hvar.
        apply has_eq_partition. by rewrite Hp. }
    rewrite fmap_app, fmap_cons in Hnd. simpl in Hnd.
    rewrite dict_update_new.
    + rewrite IH; [by rewrite <-app_assoc| |done].
      by rewrite <-app_assoc, fmap_app.
    + apply NoDup_app in Hnd as (_ & Hdisj & _). intros Hin.
      apply (Hdisj var Hin). by left.
Qed.

(** X11: what [set_systemd_vars] sends is what [get_systemd_vars] reads:
    when the remote [Environment] is the list of assignment strings that
    [set_systemd_vars] builds from a dictionary whose names have no ["="],
    [get_systemd_vars] returns that dictionary, items in the same order. *)
Theorem environment_round_trip lib self vars_dict w w1 h :
  NoDup vars_dict.*1 →
  Forall (λ p, ¬ has_eq p.1) vars_dict →
  add_systemd_properties lib self w = (Ok tt, w1) →
  cached (dbus_level self) "systemd_properties" w1 = Some (Handle h) →
  fault_of lib (trace w1) (Get_Environment h) = None →
  reply_of lib (trace w1) (Get_Environment h) = VList (format_assignments vars_dict) →
  fst (get_systemd_vars lib self w) = Ok vars_dict.
Proof.
  intros Hnd Hnames Hready Hiface Hfault Hreply.
  rewrite (get_systemd_vars_run lib self w w1 h _ Hready Hiface Hfault Hreply).
  simpl. by rewrite (parse_format vars_dict []).
Qed.

Lemma environment_round_trip_witness :
  fst (get_systemd_vars (stub ["X=y"; "Z=1 2"] None) session
         (session_world (stub ["X=y"; "Z=1 2"] None)))
  = Ok [("X", "y"); ("Z", "1 2")].
Proof.
  set (lib := stub ["X=y"; "Z=1 2"] None).
  refine (environment_round_trip lib session [("X", "y"); ("Z", "1 2")]
            (session_world lib)
            (snd (add_systemd_properties lib session (session_world lib))) 2
            _ _ eq_refl eq_refl eq_refl eq_refl).
  - simpl. apply NoDup_cons. split; [|apply NoDup_singleton].
    rewrite list_elem_of_singleton. discriminate.
  - repeat constructor; simpl; intros H; apply has_eq_partition in H; by destruct H.
Defined.

(** ** A bus that cannot be opened *)

(** X12: when the bus of a valid level is not cached and the library fails
    to open it, the constructor raises that fault and caches nothing, so
    the failure is not remembered: the next construction for the level
    calls the library again. *)
Theorem construction_fault lib level w objects f :
  level = "system" ∨ level = "session" →
  dbus_objects w !! level = Some objects →
  objects !! "bus" = None →
  fault_of lib (trace w) (connect level) = Some f →
  __init__ lib level w = (Raise (DBusException f), called (connect level) w)
  ∧ dbus_objects (called (connect level) w) = dbus_objects w
  ∧ calls_since w (snd (__init__ lib level (called (connect level) w)))
    = [connect level; connect level].
Proof.
  intros Hlevel Hl Hbus Hfault.
  assert (Hrun : ∀ w', dbus_objects w' = dbus_objects w →
    __init__ lib level w' =
      bind (bind (create lib (connect level))
              (λ bus, setitem level "bus" (Handle bus)))
           (λ _, ret (Instance level)) w').
  { intros w' Hw'. unfold __init__. rewrite bool_decide_eq_true_2.
    2:{ rewrite !elem_of_cons. tauto. }
    cbv zeta. simpl dbus_level.
    rewrite (bind_Ok _ _ _ _ _ (contains_run level "bus" w' objects
                                  ltac:(by rewrite Hw'))).
    rewrite Hbus. simpl. unfold connect. by destruct (String.eqb level "system"). }
  split; [|split; [done|]].
  - rewrite (Hrun w eq_refl). unfold bind, create. by rewrite Hfault.
  - rewrite (Hrun (called (connect level) w) eq_refl).
    unfold calls_since, bind, create. simpl.
    destruct (fault_of lib (trace w ++ [connect level]) (connect level)); simpl.
    + by rewrite <-app_assoc, drop_app_length.
    + rewrite (setitem_run _ _ _ _ objects) by done. simpl.
      by rewrite <-app_assoc, drop_app_length.
Qed.

Lemma construction_fault_witness :
  __init__ (Library (λ _ _, Some "org.freedesktop.DBus.Error.NoServer") (λ _ _, VNone))
    "system" initial_world
  = (Raise (DBusException "org.freedesktop.DBus.Error.NoServer"),
     called SystemBus initial_world).
Proof.
  exact (proj1 (construction_fault
                  (Library (λ _ _, Some "org.freedesktop.DBus.Error.NoServer")
                     (λ _ _, VNone))
                  "system" initial_world ∅ "org.freedesktop.DBus.Error.NoServer"
                  (or_introl eq_refl) eq_refl eq_refl eq_refl)).
Defined.
